(** * Collaborative canvas: session state, room registry and path simplifier

    A shallow embedding of the synchronisation core of the collaborative
    drawing application:

    - [DrawingState] (server/drawing-state.ts): the per-room operation log,
      the user map and the palette index;
    - [RoomManager] (server/rooms.ts): the process-wide room table;
    - the socket handlers of server/server.ts, which bind inbound events to
      [DrawingState] calls and decide what is broadcast;
    - the client callbacks of client/main.ts that maintain [redoStack] and
      the client's user list, and its undo and redo requests;
    - [CanvasManager] (client/canvas.ts): stroke capture and [simplifyPath].

    JavaScript numbers are IEEE-754 binary64 values; they are modelled by
    Rocq's primitive floats, whose operations are the same correctly rounded
    binary64 operations.  Strings are [string]; a JS [Map] is a [gmap]. *)

From Stdlib Require Import PrimFloat.
From stdpp Require Import gmap strings list fin_maps.

(** ** Data model *)

(** [interface DrawPoint { x: number; y: number }] *)
Record DrawPoint := mkPoint { px : float; py : float }.

(** [type: 'draw' | 'erase'] *)
Inductive OpType := Draw | Erase.

(** [interface DrawingOperation] *)
Record DrawingOperation := mkOp {
  op_id : string;
  op_userId : string;
  op_userName : string;
  op_type : OpType;
  op_points : list DrawPoint;
  op_color : string;
  op_width : float;
  op_timestamp : float
}.

(** [interface User]; the optional cursor fields are [None] when absent. *)
Record User := mkUser {
  user_id : string;
  user_name : string;
  user_color : string;
  cursorX : option float;
  cursorY : option float
}.

(** ** Path simplifier (CanvasManager.simplifyPath) *)

Module Simplify.

(** [Math.sqrt(dx * dx + dy * dy)] with [dx = b.x - a.x], [dy = b.y - a.y]. *)
Definition dist (a b : DrawPoint) : float :=
  let dx := (px b - px a)%float in
  let dy := (py b - py a)%float in
  PrimFloat.sqrt (dx * dx + dy * dy)%float.

(** [d > tolerance]; false when [d] is NaN, as in JavaScript. *)
Definition exceeds (tolerance d : float) : bool := PrimFloat.ltb tolerance d.

(** [const tolerance = 2; // pixels] *)
Definition tolerance : float := 2%float.

(** Array read [a[i]]; every read of the loop is in range (see
    [loop_reads_in_range] and [loop_body_nonempty]), so the default is never
    returned. *)
Definition origin : DrawPoint := mkPoint 0 0.
Definition at_index (a : list DrawPoint) (i : nat) : DrawPoint := nth i a origin.

(** One iteration of the [for] loop body at index [i]. *)
Definition loop_body (tol : float) (points : list DrawPoint)
    (result : list DrawPoint) (i : nat) : list DrawPoint :=
  let prev := at_index result (length result - 1) in
  let curr := at_index points i in
  let next := at_index points (i + 1) in
  let dist1 := dist prev curr in
  let dist2 := dist curr next in
  if exceeds tol dist1 || exceeds tol dist2 then result ++ [curr] else result.

(** The whole function, with the tolerance as a parameter:
    [for (let i = 1; i < points.length - 1; i++)] runs the body at
    [i = 1, ..., points.length - 2]. *)
Definition simplifyPath_tol (tol : float) (points : list DrawPoint) : list DrawPoint :=
  if length points <=? 2 then points
  else
    let result := [at_index points 0] in
    let result := fold_left (loop_body tol points) (seq 1 (length points - 2)) result in
    result ++ [at_index points (length points - 1)].

Definition simplifyPath (points : list DrawPoint) : list DrawPoint :=
  simplifyPath_tol tolerance points.

(** The rule as the specification words it: keep the first point; keep an
    interior point iff its distance to the previously kept point or to
    the next raw point exceeds the tolerance; keep the last point. *)
Fixpoint spec_scan (tol : float) (kept : DrawPoint) (rest : list DrawPoint)
    : list DrawPoint :=
  match rest with
  | [] => []
  | curr :: tl =>
      match tl with
      | [] => [curr]
      | next :: _ =>
          if exceeds tol (dist kept curr) || exceeds tol (dist curr next)
          then curr :: spec_scan tol curr tl
          else spec_scan tol kept tl
      end
  end.

Definition spec_simplify (tol : float) (points : list DrawPoint) : list DrawPoint :=
  match points with
  | first :: ((_ :: _ :: _) as rest) => first :: spec_scan tol first rest
  | _ => points
  end.

End Simplify.

(** The hypotheses of the specification's test property, as it words them:
    consecutive points closer than the tolerance, all on one straight line
    (every point on the line through the first two). *)
Fixpoint spaced_below (tol : float) (points : list DrawPoint) : bool :=
  match points with
  | a :: ((b :: _) as tl) => PrimFloat.ltb (Simplify.dist a b) tol && spaced_below tol tl
  | _ => true
  end.

Definition cross (a b c : DrawPoint) : float :=
  ((px b - px a) * (py c - py a) - (py b - py a) * (px c - px a))%float.

Definition collinear (points : list DrawPoint) : bool :=
  match points with
  | a :: b :: rest => forallb (fun c => PrimFloat.eqb (cross a b c) 0) rest
  | _ => true
  end.

(** Every interior point of [first :: rest] is within the tolerance of the
    first point and of the raw point that follows it. *)
Fixpoint interior_within (tol : float) (first : DrawPoint) (rest : list DrawPoint) : bool :=
  match rest with
  | curr :: tl =>
      match tl with
      | [] => true
      | next :: _ =>
          negb (Simplify.exceeds tol (Simplify.dist first curr))
          && negb (Simplify.exceeds tol (Simplify.dist curr next))
          && interior_within tol first tl
      end
  | [] => true
  end.

(** ** Session state of one room (server/drawing-state.ts) *)

Module DrawingState.

(** The fields of [class DrawingState].  [colorIdx] is a JS number that
    only counts joins upwards from 0. *)
Record t := mk {
  operations : list DrawingOperation;
  users : gmap string User;
  colorIdx : nat
}.

Definition userColors : list string :=
  ["#FF6B6B"; "#4ECDC4"; "#45B7D1"; "#FFA07A";
   "#98D8C8"; "#F7DC6F"; "#BB8FCE"; "#85C1E2"]%string.

(** [new DrawingState()] *)
Definition init : t := mk [] ∅ 0.

(** [addUser]: [Map.set] replaces the entry of a key already present. *)
Definition addUser (userId userName : string) (s : t) : User * t :=
  let color := nth (colorIdx s mod length userColors) userColors ""%string in
  let user := mkUser userId userName color None None in
  (user, mk (operations s) (<[userId := user]> (users s)) (colorIdx s + 1)).

Definition removeUser (userId : string) (s : t) : t :=
  mk (operations s) (delete userId (users s)) (colorIdx s).

(** [Array.from(this.users.values())]; only its length and its members are
    used below, not the order. *)
Definition getUsers (s : t) : list User := (map_to_list (users s)).*2.

Definition getUser (userId : string) (s : t) : option User := users s !! userId.

Definition updateUserCursor (userId : string) (x y : float) (s : t) : t :=
  match users s !! userId with
  | Some user =>
      let user' := mkUser (user_id user) (user_name user) (user_color user)
                          (Some x) (Some y) in
      mk (operations s) (<[userId := user']> (users s)) (colorIdx s)
  | None => s
  end.

Definition addOperation (op : DrawingOperation) (s : t) : t :=
  mk (operations s ++ [op]) (users s) (colorIdx s).

Definition getAllOperations (s : t) : list DrawingOperation := operations s.

(** [undoLastOperation]: [null] on an empty log, else [pop()]. *)
Definition undoLastOperation (s : t) : option DrawingOperation * t :=
  if length (operations s) =? 0 then (None, s)
  else (last (operations s),
        mk (removelast (operations s)) (users s) (colorIdx s)).

Definition redoOperation (op : DrawingOperation) (s : t) : t :=
  mk (operations s ++ [op]) (users s) (colorIdx s).

Definition clearAll (s : t) : t := mk [] (users s) (colorIdx s).

Definition getOperationCount (s : t) : nat := length (operations s).

End DrawingState.

(** ** Room registry (server/rooms.ts) *)

Module RoomManager.

(** [private rooms: Map<string, DrawingState>].  The table holds the room
    objects themselves; a method call on the object returned by [getRoom]
    changes the table's entry, which [update] writes out. *)
Abbreviation t := (gmap string DrawingState.t).

Definition init : t := ∅.

Definition getRoom (roomId : string) (rooms : t) : DrawingState.t * t :=
  match rooms !! roomId with
  | Some room => (room, rooms)
  | None => (DrawingState.init, <[roomId := DrawingState.init]> rooms)
  end.

Definition hasRoom (roomId : string) (rooms : t) : bool :=
  bool_decide (is_Some (rooms !! roomId)).

Definition deleteRoomIfEmpty (roomId : string) (rooms : t) : bool * t :=
  match rooms !! roomId with
  | Some room =>
      if length (DrawingState.getUsers room) =? 0
      then (true, delete roomId rooms)
      else (false, rooms)
  | None => (false, rooms)
  end.

Definition getAllRoomIds (rooms : t) : list string := (map_to_list rooms).*1.

Definition getRoomCount (rooms : t) : nat := size rooms.

(** [roomManager.getRoom(roomId).m(...)] for a mutating method [m]. *)
Definition update (roomId : string) (m : DrawingState.t → DrawingState.t) (rooms : t) : t :=
  let '(room, rooms) := getRoom roomId rooms in
  <[roomId := m room]> rooms.

(** The registry part of the ['join-room'] handler of server.ts:
    [roomManager.getRoom(roomId).addUser(socket.id, userName)]. *)
Definition on_join_room (roomId userName socketId : string) (rooms : t) : User * t :=
  let '(room, rooms) := getRoom roomId rooms in
  let '(user, room) := DrawingState.addUser socketId userName room in
  (user, <[roomId := room]> rooms).

(** The registry part of the body of the ['disconnect'] handler, that is
    of what runs inside [if (currentRoom && currentUserId)] for these two
    values: [removeUser], then [deleteRoomIfEmpty].  The guard itself, which
    skips the body for a null or empty room or user id, is in
    [Server.disconnect]. *)
Definition on_disconnect (currentRoom currentUserId : string) (rooms : t) : bool * t :=
  let rooms := update currentRoom (DrawingState.removeUser currentUserId) rooms in
  deleteRoomIfEmpty currentRoom rooms.

End RoomManager.

(** ** Client replica (client/main.ts, client/canvas.ts) *)

Module CollaborativeCanvas.

(** The fields of the client that record history: the operation list of
    its [CanvasManager] and the two stacks.  Rendering is not modelled. *)
Record t := mk {
  canvasOperations : list DrawingOperation;
  undoStack : list DrawingOperation;
  redoStack : list DrawingOperation
}.

Definition init : t := mk [] [] [].

Definition clearUndoStack (c : t) : t := mk (canvasOperations c) [] (redoStack c).

Definition clearRedoStack (c : t) : t := mk (canvasOperations c) (undoStack c) [].

(** [stopDrawing()], given what [canvasManager.stopDrawing] returned; the
    canvas manager has already pushed a non-null operation on its list. *)
Definition stopDrawing (op : option DrawingOperation) (c : t) : t :=
  match op with
  | Some op => clearRedoStack (mk (canvasOperations c ++ [op]) (undoStack c) (redoStack c))
  | None => c
  end.

Definition onDrawOperation (op : DrawingOperation) (c : t) : t :=
  clearRedoStack (mk (canvasOperations c ++ [op]) (undoStack c) (redoStack c)).

(** [onUndo]: [redrawFromHistory] installs the filtered list. *)
Definition onUndo (operationId : string) (operation : DrawingOperation) (c : t) : t :=
  let updated := filter (λ op, op_id op ≠ operationId) (canvasOperations c) in
  mk updated (undoStack c) (redoStack c ++ [operation]).

Definition onRedo (op : DrawingOperation) (c : t) : t :=
  mk (canvasOperations c ++ [op]) (undoStack c)
     (filter (λ o, op_id o ≠ op_id op) (redoStack c)).

Definition onClearCanvas (c : t) : t :=
  clearRedoStack (clearUndoStack (mk [] (undoStack c) (redoStack c))).

End CollaborativeCanvas.

(** ** A room session: the authority and a connected client

    The specification's Session State has a log, a redo buffer and users.
    In the code the log and the users live in the room's [DrawingState] on
    the server and the redo buffer is the [redoStack] of a client.  A
    session pairs the room state with the state of one client that stays
    connected to the room, the client having received every broadcast the
    server has sent so far (broadcasts reach a client in the order the
    server sent them).  An event is either the server handling one message,
    followed by the callback its broadcast triggers in the client if the
    broadcast is addressed to it, or a step the client takes on its own
    before anything is sent ([commit]).  The events are listed in the order
    the server handles them; a local step of the client sits where the
    client took it among the broadcasts it received, which may be well
    before the server handles the message it produced. *)

Module Session.

Record t := mk {
  server : DrawingState.t;
  client : CollaborativeCanvas.t
}.

Definition init : t := mk DrawingState.init CollaborativeCanvas.init.

Definition log (s : t) : list DrawingOperation := DrawingState.operations (server s).
Definition redoBuffer (s : t) : list DrawingOperation := CollaborativeCanvas.redoStack (client s).
Definition users (s : t) : gmap string User := DrawingState.users (server s).

(** Who drew a fresh operation: the modelled client or another one. *)
Inductive Origin := Self | Peer.

(** The client's own stroke: [stopDrawing] records it locally and clears
    the redo stack before the operation is sent; the server is not involved
    yet. *)
Definition commit (op : DrawingOperation) (s : t) : t :=
  mk (server s) (CollaborativeCanvas.stopDrawing (Some op) (client s)).

(** ['draw-operation']: the server appends and broadcasts with
    [socket.to(room)], that is to everyone but the sender.  A client other
    than the issuer runs [onDrawOperation]; the issuer hears nothing back
    (it committed the stroke earlier, see [commit]). *)
Definition apply (from : Origin) (op : DrawingOperation) (s : t) : t :=
  match from with
  | Self => mk (DrawingState.addOperation op (server s)) (client s)
  | Peer =>
      let srv := DrawingState.addOperation op (server s) in
      mk srv (CollaborativeCanvas.onDrawOperation op (client s))
  end.

(** ['undo']: broadcast to the whole room only if something was undone. *)
Definition undo (s : t) : option DrawingOperation * t :=
  let '(undoneOp, srv) := DrawingState.undoLastOperation (server s) in
  match undoneOp with
  | Some op => (Some op, mk srv (CollaborativeCanvas.onUndo (op_id op) op (client s)))
  | None => (None, mk srv (client s))
  end.

(** ['redo']: pushed on the log and broadcast to the whole room. *)
Definition redo (op : DrawingOperation) (s : t) : t :=
  mk (DrawingState.redoOperation op (server s))
     (CollaborativeCanvas.onRedo op (client s)).

(** ['clear-canvas'] *)
Definition clear (s : t) : t :=
  mk (DrawingState.clearAll (server s))
     (CollaborativeCanvas.onClearCanvas (client s)).

(** ['join-room'], ['disconnect'] and ['cursor-move'] change the room
    state only; their broadcasts reach the client's user list, which is
    not part of the history fields modelled here. *)
Definition join (userId userName : string) (s : t) : User * t :=
  let '(user, srv) := DrawingState.addUser userId userName (server s) in
  (user, mk srv (client s)).

Definition leave (userId : string) (s : t) : t :=
  mk (DrawingState.removeUser userId (server s)) (client s).

Definition moveCursor (userId : string) (x y : float) (s : t) : t :=
  mk (DrawingState.updateUserCursor userId x y (server s)) (client s).

Inductive Event :=
| ECommit (op : DrawingOperation)
| EApply (from : Origin) (op : DrawingOperation)
| EUndo
| ERedo (op : DrawingOperation)
| EClear
| EJoin (userId userName : string)
| ELeave (userId : string)
| EMoveCursor (userId : string) (x y : float).

Definition step (s : t) (e : Event) : t :=
  match e with
  | ECommit op => commit op s
  | EApply from op => apply from op s
  | EUndo => (undo s).2
  | ERedo op => redo op s
  | EClear => clear s
  | EJoin userId userName => (join userId userName s).2
  | ELeave userId => leave userId s
  | EMoveCursor userId x y => moveCursor userId x y s
  end.

Definition run (evs : list Event) : t := fold_left step evs init.

(** The obligation the server leaves to its callers: an operation it is
    asked to push on the log, by ['draw-operation'] or by ['redo'], carries
    an id that is not in the log when the server handles the message. *)
Definition admissible (s : t) (e : Event) : Prop :=
  match e with
  | EApply _ op => op_id op ∉ op_id <$> log s
  | ERedo op => op_id op ∉ op_id <$> log s
  | _ => True
  end.

Fixpoint admissible_from (s : t) (evs : list Event) : Prop :=
  match evs with
  | [] => True
  | e :: evs => admissible s e ∧ admissible_from (step s e) evs
  end.

(** The ids of the log and of the client's redo buffer, taken together, are
    pairwise distinct. *)
Definition ids_distinct (s : t) : Prop := NoDup (op_id <$> (log s ++ redoBuffer s)).

End Session.

(** One stroke, as a client would submit it. *)
Definition opA : DrawingOperation :=
  mkOp "sockA-1730000000000-0.25" "sockA" "Ann" Draw
       [mkPoint 10 10; mkPoint 14 10] "#000000" 3 1730000000000.

Definition opB : DrawingOperation :=
  mkOp "sockB-1730000000500-0.75" "sockB" "Bob" Erase
       [mkPoint 12 8] "#000000" 5 1730000000500.

(** Concrete sessions used in the examples below. *)
Definition session_AB : Session.t :=
  Session.run [Session.EApply Session.Peer opA; Session.ECommit opB;
               Session.EApply Session.Self opB].

Definition session_undone : Session.t :=
  Session.run [Session.EApply Session.Peer opA; Session.EUndo].

Definition session_joined : Session.t :=
  Session.run [Session.EJoin "sockA" "Ann"].

Definition trace_ok : list Session.Event :=
  [Session.EJoin "sockA" "Ann"; Session.EApply Session.Peer opA;
   Session.ECommit opB; Session.EApply Session.Self opB;
   Session.EUndo; Session.EUndo;
   Session.EMoveCursor "sockA" 3 4; Session.ERedo opA;
   Session.ELeave "sockA"; Session.EApply Session.Peer opB; Session.EClear].

Definition state_Ann : DrawingState.t :=
  (DrawingState.addUser "sockA" "Ann" DrawingState.init).2.

(** Five collinear points one pixel apart. *)
Definition line5 : list DrawPoint :=
  [mkPoint 0 0; mkPoint 1 0; mkPoint 2 0; mkPoint 3 0; mkPoint 4 0].

(** Every interior point of [rest] is farther than the tolerance from the
    raw point that follows it. *)
Fixpoint interior_far (tol : float) (rest : list DrawPoint) : bool :=
  match rest with
  | curr :: tl =>
      match tl with
      | [] => true
      | next :: _ =>
          Simplify.exceeds tol (Simplify.dist curr next) && interior_far tol tl
      end
  | [] => true
  end.

(** ** Client requests (client/main.ts, client/websocket.ts) *)

Module Requests.

(** What the client puts on the wire for the undo and redo buttons. *)
Inductive Request :=
| SendUndo
| SendRedo (op : DrawingOperation).

(** [WebSocketManager.sendUndo] / [sendRedo]: dropped when not connected. *)
Definition sendUndo (connected : bool) : option Request :=
  if negb connected then None else Some SendUndo.

Definition sendRedo (connected : bool) (op : DrawingOperation) : option Request :=
  if negb connected then None else Some (SendRedo op).

(** [CollaborativeCanvas.undo()]: nothing is sent while the client's own
    copy of the history is empty. *)
Definition undo (connected : bool) (c : CollaborativeCanvas.t) : option Request :=
  if length (CollaborativeCanvas.canvasOperations c) =? 0 then None
  else sendUndo connected.

(** [CollaborativeCanvas.redo()]: sends the top of [redoStack]. *)
Definition redo (connected : bool) (c : CollaborativeCanvas.t) : option Request :=
  if length (CollaborativeCanvas.redoStack c) =? 0 then None
  else
    match last (CollaborativeCanvas.redoStack c) with
    | Some op => sendRedo connected op
    | None => None
    end.

End Requests.

(** One press of the redo button answered in full before anything else
    happens: [redo()] reads the top of the client's stack as it is when the
    button is pressed (it does not pop it), the server handles the request,
    and the broadcast comes back to the client.  A press made before the
    previous answer has arrived is not of this form: it sends the same
    operation again. *)
Definition redo_answered (s : Session.t) : Session.t :=
  match Requests.redo true (Session.client s) with
  | Some (Requests.SendRedo op) => Session.redo op s
  | _ => s
  end.

(** A run as one client lives it when its own strokes are not overtaken:
    either the server handles an event of somebody else, or the client
    draws a stroke and the server appends it before any other broadcast
    reaches the client. *)
Inductive Turn :=
| Heard (e : Session.Event)
| Drawn (op : DrawingOperation).

Definition heard_event (e : Session.Event) : bool :=
  match e with
  | Session.ECommit _ | Session.EApply Session.Self _ => false
  | _ => true
  end.

Definition turn_events (t : Turn) : list Session.Event :=
  match t with
  | Heard e => [e]
  | Drawn op => [Session.ECommit op; Session.EApply Session.Self op]
  end.

Definition turn_ok (t : Turn) : Prop :=
  match t with
  | Heard e => heard_event e = true
  | Drawn _ => True
  end.

(** The events that touch the history, as opposed to presence events. *)
Definition is_history (e : Session.Event) : bool :=
  match e with
  | Session.ECommit _ | Session.EApply _ _ | Session.EUndo | Session.ERedo _
  | Session.EClear => true
  | _ => false
  end.

Definition is_join (e : Session.Event) : bool :=
  match e with
  | Session.EJoin _ _ => true
  | _ => false
  end.

(** Every user record is stored under its own id and carries a colour of
    the palette. *)
Definition users_wf (users : gmap string User) : Prop :=
  ∀ k u, users !! k = Some u →
         user_id u = k ∧ user_color u ∈ DrawingState.userColors.

(** ** Stroke capture (client/canvas.ts) *)

Module CanvasManager.

(** [type: 'brush' | 'eraser'] *)
Inductive ToolType := Brush | Eraser.

(** [interface DrawingTool] and [Partial<DrawingTool>] *)
Record DrawingTool := mkTool {
  tool_type : ToolType;
  tool_color : string;
  tool_width : float
}.

Record PartialTool := mkPartial {
  partial_type : option ToolType;
  partial_color : option string;
  partial_width : option float
}.

(** The fields of [class CanvasManager] that do not belong to the DOM. *)
Record t := mk {
  isDrawing : bool;
  currentPoints : list DrawPoint;
  currentTool : DrawingTool;
  operations : list DrawingOperation;
  lastRenderTime : float
}.

(** State after the constructor: brush, black, width 3, nothing drawn. *)
Definition init : t := mk false [] (mkTool Brush "#000000" 3) [] 0.

(** [1000 / this.targetFPS] *)
Definition frameInterval : float := (1000 / 60)%float.

(** [{ ...this.currentTool, ...tool }] *)
Definition setTool (tool : PartialTool) (c : t) : t :=
  let cur := currentTool c in
  mk (isDrawing c) (currentPoints c)
     (mkTool (default (tool_type cur) (partial_type tool))
             (default (tool_color cur) (partial_color tool))
             (default (tool_width cur) (partial_width tool)))
     (operations c) (lastRenderTime c).

Definition getTool (c : t) : DrawingTool := currentTool c.

Definition startDrawing (x y : float) (c : t) : t :=
  mk true [mkPoint x y] (currentTool c) (operations c) (lastRenderTime c).

(** [continueDrawing]; [now] is the value of [Date.now()].  The preview
    rendering itself is not modelled, only its throttle. *)
Definition continueDrawing (x y now : float) (c : t) : t :=
  if negb (isDrawing c) then c
  else
    let points := currentPoints c ++ [mkPoint x y] in
    if PrimFloat.leb frameInterval (now - lastRenderTime c)
    then mk (isDrawing c) points (currentTool c) (operations c) now
    else mk (isDrawing c) points (currentTool c) (operations c) (lastRenderTime c).

Section StopDrawing.

(** The runtime's conversion of a number inside a template string. *)
Variable number_to_string : float → string.

(** [stopDrawing(userId, userName)]; [now1], [rnd] and [now2] are the
    values of [Date.now()], [Math.random()] and [Date.now()] read while the
    operation is built. *)
Definition stopDrawing (userId userName : string) (now1 rnd now2 : float) (c : t)
    : option DrawingOperation * t :=
  if negb (isDrawing c) || (length (currentPoints c) =? 0)
  then (None, mk false (currentPoints c) (currentTool c) (operations c) (lastRenderTime c))
  else
    let cleanedPoints := Simplify.simplifyPath (currentPoints c) in
    let operation :=
      mkOp (String.append userId
              (String.append "-"
                 (String.append (number_to_string now1)
                    (String.append "-" (number_to_string rnd)))))
           userId userName
           (match tool_type (currentTool c) with Eraser => Erase | Brush => Draw end)
           cleanedPoints
           (tool_color (currentTool c))
           (tool_width (currentTool c))
           now2 in
    (Some operation,
     mk false [] (currentTool c) (operations c ++ [operation]) (lastRenderTime c)).

End StopDrawing.

Definition clearCanvas (c : t) : t :=
  mk (isDrawing c) (currentPoints c) (currentTool c) [] (lastRenderTime c).

Definition redrawFromHistory (ops : list DrawingOperation) (c : t) : t :=
  let c := clearCanvas c in
  mk (isDrawing c) (currentPoints c) (currentTool c) ops (lastRenderTime c).

Definition getOperations (c : t) : list DrawingOperation := operations c.

Definition setOperations (ops : list DrawingOperation) (c : t) : t :=
  mk (isDrawing c) (currentPoints c) (currentTool c) ops (lastRenderTime c).

Definition addOperation (op : DrawingOperation) (c : t) : t :=
  mk (isDrawing c) (currentPoints c) (currentTool c) (operations c ++ [op])
     (lastRenderTime c).

(** [this.operations.pop()]: [undefined] on an empty list. *)
Definition removeLastOperation (c : t) : option DrawingOperation * t :=
  (last (operations c),
   mk (isDrawing c) (currentPoints c) (currentTool c) (removelast (operations c))
      (lastRenderTime c)).

(** A stroke as the mouse handlers drive it: [mousedown], then one
    [mousemove] per entry of [moves] (position and time). *)
Definition drag (x0 y0 : float) (moves : list (float * float * float)) (c : t) : t :=
  fold_left (λ c m, continueDrawing m.1.1 m.1.2 m.2 c) moves (startDrawing x0 y0 c).

End CanvasManager.

(** ** Socket handlers (server/server.ts) *)

Module Server.

(** The variables each connection's handlers close over. *)
Record Conn := mkConn {
  socket_id : string;
  currentRoom : option string;
  currentUserId : option string
}.

(** A fresh connection. *)
Definition connect (socketId : string) : Conn := mkConn socketId None None.

(** The value of a [string | null] variable when it passes an [if]:
    [null] and the empty string do not. *)
Definition truthy (v : option string) : option string :=
  match v with
  | Some s => if decide (s = ""%string) then None else Some s
  | None => None
  end.

(** [socket.emit], [socket.to(room).emit] and [io.to(room).emit]. *)
Inductive Audience :=
| ToSender
| ToOthers (roomId : string)
| ToRoom (roomId : string).

Inductive Message :=
| InitState (userId : string) (user : User)
            (operations : list DrawingOperation) (users : list User)
| UserJoined (user : User) (users : list User)
| UserLeft (userId : string) (users : list User)
| DrawOperationMsg (op : DrawingOperation)
| CursorMoveMsg (userId : string) (x y : float)
| UndoMsg (operationId : string) (operation : DrawingOperation)
| RedoMsg (op : DrawingOperation)
| ClearCanvasMsg.

Record Outcome := mkOutcome {
  conn : Conn;
  rooms : gmap string DrawingState.t;
  emits : list (Audience * Message)
}.

Definition ignored (c : Conn) (rooms : gmap string DrawingState.t) : Outcome :=
  mkOutcome c rooms [].

(** ['join-room'] *)
Definition join_room (roomId userName : string) (c : Conn)
    (rooms : gmap string DrawingState.t) : Outcome :=
  let c := mkConn (socket_id c) (Some roomId) (Some (socket_id c)) in
  let '(roomState, rooms) := RoomManager.getRoom roomId rooms in
  let '(user, roomState) := DrawingState.addUser (socket_id c) userName roomState in
  let rooms := <[roomId := roomState]> rooms in
  mkOutcome c rooms
    [(ToSender, InitState (socket_id c) user
                  (DrawingState.getAllOperations roomState)
                  (DrawingState.getUsers roomState));
     (ToOthers roomId, UserJoined user (DrawingState.getUsers roomState))].

(** ['draw-operation'] *)
Definition draw_operation (op : DrawingOperation) (c : Conn)
    (rooms : gmap string DrawingState.t) : Outcome :=
  match truthy (currentRoom c) with
  | None => ignored c rooms
  | Some room =>
      let '(roomState, rooms) := RoomManager.getRoom room rooms in
      let roomState := DrawingState.addOperation op roomState in
      mkOutcome c (<[room := roomState]> rooms) [(ToOthers room, DrawOperationMsg op)]
  end.

(** ['cursor-move'] *)
Definition cursor_move (x y : float) (c : Conn)
    (rooms : gmap string DrawingState.t) : Outcome :=
  match truthy (currentRoom c), truthy (currentUserId c) with
  | Some room, Some userId =>
      let '(roomState, rooms) := RoomManager.getRoom room rooms in
      let roomState := DrawingState.updateUserCursor userId x y roomState in
      mkOutcome c (<[room := roomState]> rooms)
        [(ToOthers room, CursorMoveMsg userId x y)]
  | _, _ => ignored c rooms
  end.

(** ['undo'] *)
Definition undo (c : Conn) (rooms : gmap string DrawingState.t) : Outcome :=
  match truthy (currentRoom c) with
  | None => ignored c rooms
  | Some room =>
      let '(roomState, rooms) := RoomManager.getRoom room rooms in
      let '(undoneOp, roomState) := DrawingState.undoLastOperation roomState in
      let rooms := <[room := roomState]> rooms in
      match undoneOp with
      | Some op => mkOutcome c rooms [(ToRoom room, UndoMsg (op_id op) op)]
      | None => mkOutcome c rooms []
      end
  end.

(** ['redo'] *)
Definition redo (op : DrawingOperation) (c : Conn)
    (rooms : gmap string DrawingState.t) : Outcome :=
  match truthy (currentRoom c) with
  | None => ignored c rooms
  | Some room =>
      let '(roomState, rooms) := RoomManager.getRoom room rooms in
      let roomState := DrawingState.redoOperation op roomState in
      mkOutcome c (<[room := roomState]> rooms) [(ToRoom room, RedoMsg op)]
  end.

(** ['clear-canvas'] *)
Definition clear_canvas (c : Conn) (rooms : gmap string DrawingState.t) : Outcome :=
  match truthy (currentRoom c) with
  | None => ignored c rooms
  | Some room =>
      let '(roomState, rooms) := RoomManager.getRoom room rooms in
      let roomState := DrawingState.clearAll roomState in
      mkOutcome c (<[room := roomState]> rooms) [(ToRoom room, ClearCanvasMsg)]
  end.

(** ['disconnect'] *)
Definition disconnect (c : Conn) (rooms : gmap string DrawingState.t) : Outcome :=
  match truthy (currentRoom c), truthy (currentUserId c) with
  | Some room, Some userId =>
      let '(roomState, rooms) := RoomManager.getRoom room rooms in
      let roomState := DrawingState.removeUser userId roomState in
      let rooms := <[room := roomState]> rooms in
      let emits := [(ToOthers room, UserLeft userId (DrawingState.getUsers roomState))] in
      mkOutcome c (RoomManager.deleteRoomIfEmpty room rooms).2 emits
  | _, _ => ignored c rooms
  end.

(** The state a handler works on: the room looked up, or created empty. *)
Definition before (r : string) (rooms : gmap string DrawingState.t) : DrawingState.t :=
  default DrawingState.init (rooms !! r).

(** The events a connection can deliver to its handlers. *)
Inductive Inbound :=
| JoinRoom (roomId userName : string)
| DrawOperation (op : DrawingOperation)
| CursorMove (x y : float)
| Undo
| Redo (op : DrawingOperation)
| ClearCanvas
| Disconnect.

Definition handle (ev : Inbound) (c : Conn) (rooms : gmap string DrawingState.t)
    : Outcome :=
  match ev with
  | JoinRoom roomId userName => join_room roomId userName c rooms
  | DrawOperation op => draw_operation op c rooms
  | CursorMove x y => cursor_move x y c rooms
  | Undo => undo c rooms
  | Redo op => redo op c rooms
  | ClearCanvas => clear_canvas c rooms
  | Disconnect => disconnect c rooms
  end.

(** The room an event is applied to, and the user id it is applied under. *)
Definition target_room (c : Conn) (ev : Inbound) : option string :=
  match ev with
  | JoinRoom roomId _ => Some roomId
  | _ => truthy (currentRoom c)
  end.

Definition acting_user (c : Conn) (ev : Inbound) : option string :=
  match ev with
  | JoinRoom _ _ => Some (socket_id c)
  | _ => truthy (currentUserId c)
  end.

(** The same event in the vocabulary of a room session. *)
Definition as_event (userId : string) (ev : Inbound) : Session.Event :=
  match ev with
  | JoinRoom _ userName => Session.EJoin userId userName
  | DrawOperation op => Session.EApply Session.Peer op
  | CursorMove x y => Session.EMoveCursor userId x y
  | Undo => Session.EUndo
  | Redo op => Session.ERedo op
  | ClearCanvas => Session.EClear
  | Disconnect => Session.ELeave userId
  end.

(** What a member of [roomId] other than the sender receives. *)
Definition heard_by_peer (roomId : string) (emits : list (Audience * Message))
    : list Message :=
  omap (λ e, match e.1 with
             | ToSender => None
             | ToOthers r | ToRoom r => if decide (r = roomId) then Some e.2 else None
             end) emits.

(** What the sender itself receives, being a member of [roomId]. *)
Definition heard_by_sender (roomId : string) (emits : list (Audience * Message))
    : list Message :=
  omap (λ e, match e.1 with
             | ToSender => Some e.2
             | ToOthers _ => None
             | ToRoom r => if decide (r = roomId) then Some e.2 else None
             end) emits.

End Server.

(** ** The client's reaction to server messages (client/main.ts) *)

Module Client.

Record t := mk {
  history : CollaborativeCanvas.t;
  currentUser : option User;
  users : gmap string User
}.

Definition init : t := mk CollaborativeCanvas.init None ∅.

(** [updateUsersList]: [clear()], then [set(user.id, user)] in list order. *)
Definition updateUsersList (us : list User) (c : t) : t :=
  mk (history c) (currentUser c)
     (fold_left (λ m user, <[user_id user := user]> m) us ∅).

Definition onInitState (userId : string) (user : User)
    (operations : list DrawingOperation) (us : list User) (c : t) : t :=
  let h := history c in
  let h := CollaborativeCanvas.mk operations (CollaborativeCanvas.undoStack h)
                                  (CollaborativeCanvas.redoStack h) in
  updateUsersList us (mk h (Some user) (users c)).

Definition onUserJoined (user : User) (us : list User) (c : t) : t :=
  updateUsersList us c.

Definition onUserLeft (userId : string) (us : list User) (c : t) : t :=
  let c := updateUsersList us c in
  mk (history c) (currentUser c) (delete userId (users c)).

(** [updateRemoteCursor] *)
Definition onCursorMove (userId : string) (x y : float) (c : t) : t :=
  match users c !! userId with
  | None => c
  | Some user =>
      let user := mkUser (user_id user) (user_name user) (user_color user)
                         (Some x) (Some y) in
      mk (history c) (currentUser c) (<[userId := user]> (users c))
  end.

Definition on_history (f : CollaborativeCanvas.t → CollaborativeCanvas.t) (c : t) : t :=
  mk (f (history c)) (currentUser c) (users c).

(** The listeners [WebSocketManager] installs, bound to the callbacks of
    [setupWebSocketCallbacks]. *)
Definition receive (c : t) (m : Server.Message) : t :=
  match m with
  | Server.InitState userId user operations us => onInitState userId user operations us c
  | Server.UserJoined user us => onUserJoined user us c
  | Server.UserLeft userId us => onUserLeft userId us c
  | Server.DrawOperationMsg op => on_history (CollaborativeCanvas.onDrawOperation op) c
  | Server.CursorMoveMsg userId x y => onCursorMove userId x y c
  | Server.UndoMsg operationId operation =>
      on_history (CollaborativeCanvas.onUndo operationId operation) c
  | Server.RedoMsg op => on_history (CollaborativeCanvas.onRedo op) c
  | Server.ClearCanvasMsg => on_history CollaborativeCanvas.onClearCanvas c
  end.

Definition receive_all (msgs : list Server.Message) (c : t) : t :=
  fold_left receive msgs c.

End Client.

(** User records stored under their own id. *)
Definition keyed (users : gmap string User) : Prop :=
  ∀ k u, users !! k = Some u → user_id u = k.

(** The position of a mouse move (position and time). *)
Definition move_point (m : float * float * float) : DrawPoint := mkPoint m.1.1 m.1.2.

(** A race between one client's stroke and another client's undo, driven
    through the handlers: Ann and Bob are in room r1 and Bob has drawn
    [opB].  Ann releases the mouse on [opA] while Bob's undo is on its way:
    the server handles the undo first, Ann receives its broadcast after
    her local commit, and the server appends [opA] last. *)
Definition connA : Server.Conn := Server.mkConn "sockA" (Some "r1"%string) (Some "sockA"%string).
Definition connB : Server.Conn := Server.mkConn "sockB" (Some "r1"%string) (Some "sockB"%string).

Definition race_joined : gmap string DrawingState.t :=
  Server.rooms
    (Server.join_room "r1" "Bob" (Server.connect "sockB")
       (Server.rooms (Server.join_room "r1" "Ann" (Server.connect "sockA")
                        RoomManager.init))).

Definition race_drawn : Server.Outcome :=
  Server.handle (Server.DrawOperation opB) connB race_joined.

Definition race_undone : Server.Outcome :=
  Server.handle Server.Undo connB (Server.rooms race_drawn).

Definition race_applied : Server.Outcome :=
  Server.handle (Server.DrawOperation opA) connA (Server.rooms race_undone).

Definition race_Ann : Client.t :=
  let heard_opB :=
    Client.receive_all (Server.heard_by_peer "r1" (Server.emits race_drawn)) Client.init in
  let committed :=
    Client.on_history (CollaborativeCanvas.stopDrawing (Some opA)) heard_opB in
  let heard_undo :=
    Client.receive_all (Server.heard_by_peer "r1" (Server.emits race_undone)) committed in
  Client.receive_all (Server.heard_by_sender "r1" (Server.emits race_applied)) heard_undo.

(** The same race as a session run, and the state just before the server
    appends [opA]. *)
Definition race_before_apply : Session.t :=
  Session.run [Session.EApply Session.Peer opB; Session.ECommit opA; Session.EUndo].

(** The run [trace_ok] as the client lives it. *)
Definition turns_ok : list Turn :=
  [Heard (Session.EJoin "sockA" "Ann"); Heard (Session.EApply Session.Peer opA);
   Drawn opB; Heard Session.EUndo; Heard Session.EUndo;
   Heard (Session.EMoveCursor "sockA" 3 4); Heard (Session.ERedo opA);
   Heard (Session.ELeave "sockA"); Heard (Session.EApply Session.Peer opB);
   Heard Session.EClear].

(** * Properties of the path simplifier *)

Section SimplifyFacts.
Import Simplify.
Variable tol : float.

(** Every index the loop visits, and its successor, is a valid index. *)
Lemma loop_reads_in_range (points : list DrawPoint) (i : nat) :
  i ∈ seq 1 (length points - 2) → 1 ≤ i ∧ i + 1 < length points.
Proof. rewrite elem_of_seq. lia. Qed.

(** [result] starts as a singleton and only grows, so
    [result[result.length - 1]] is always defined. *)
Lemma loop_body_nonempty (points result : list DrawPoint) (i : nat) :
  result ≠ [] → loop_body tol points result i ≠ [].
Proof.
  intros Hne. unfold loop_body.
  destruct (_ || _); [|exact Hne].
  destruct result; [congruence | discriminate].
Qed.

Lemma at_index_last (acc : list DrawPoint) (kept : DrawPoint) :
  at_index (acc ++ [kept]) (length (acc ++ [kept]) - 1) = kept.
Proof.
  unfold at_index. rewrite length_app. simpl.
  replace (length acc + 1 - 1) with (length acc) by lia.
  apply nth_middle.
Qed.

Lemma at_index_middle (pre : list DrawPoint) (p : DrawPoint) (post : list DrawPoint) :
  at_index (pre ++ p :: post) (length pre) = p.
Proof. apply nth_middle. Qed.

(** One iteration, read through the decomposition
    [points = pre ++ curr :: next :: post] at [i = length pre]. *)
Lemma loop_body_step (pre post acc : list DrawPoint) (kept curr next : DrawPoint) :
  loop_body tol (pre ++ curr :: next :: post) (acc ++ [kept]) (length pre) =
  if exceeds tol (dist kept curr) || exceeds tol (dist curr next)
  then (acc ++ [kept]) ++ [curr] else acc ++ [kept].
Proof.
  unfold loop_body.
  rewrite at_index_last, at_index_middle.
  replace (at_index (pre ++ curr :: next :: post) (length pre + 1)) with next; [done|].
  replace (pre ++ curr :: next :: post) with ((pre ++ [curr]) ++ next :: post)
    by (by rewrite <- app_assoc).
  replace (length pre + 1) with (length (pre ++ [curr]))
    by (rewrite length_app; simpl; lia).
  by rewrite at_index_middle.
Qed.

(** Loop invariant: with [pre] already scanned and [kept] the last point
    pushed, the remaining iterations followed by the final push produce what
    the specification's scan produces on the unscanned suffix. *)
Lemma loop_refines_scan (rest pre acc : list DrawPoint) (kept last : DrawPoint) :
  fold_left (loop_body tol (pre ++ rest ++ [last]))
            (seq (length pre) (length rest)) (acc ++ [kept])
    ++ [at_index (pre ++ rest ++ [last]) (length (pre ++ rest ++ [last]) - 1)]
  = (acc ++ [kept]) ++ spec_scan tol kept (rest ++ [last]).
Proof.
  revert pre acc kept.
  induction rest as [|curr rest IH]; intros pre acc kept.
  - simpl. f_equal. f_equal.
    replace (length (pre ++ [last]) - 1) with (length pre)
      by (rewrite length_app; simpl; lia).
    apply at_index_middle.
  - cbn [length seq fold_left].
    assert (Hnext : ∃ next post, rest ++ [last] = next :: post).
    { destruct rest; simpl; eauto. }
    destruct Hnext as (next & post & Hnext).
    change ((curr :: rest) ++ [last]) with (curr :: (rest ++ [last])).
    cbn [spec_scan]. rewrite Hnext.
    rewrite loop_body_step. rewrite <- Hnext.
    specialize (IH (pre ++ [curr])).
    rewrite length_app in IH. simpl in IH.
    replace (length pre + 1) with (S (length pre)) in IH by lia.
    rewrite <- !app_assoc in IH. simpl in IH.
    destruct (_ || _).
    + rewrite (IH (acc ++ [kept]) curr).
      by rewrite <- !app_assoc.
    + apply IH.
Qed.

(** The loop of the source and the scan of the specification agree, at
    every tolerance. *)
Lemma simplifyPath_tol_refines (points : list DrawPoint) :
  simplifyPath_tol tol points = spec_simplify tol points.
Proof.
  unfold simplifyPath_tol.
  destruct points as [|first [|second [|third rest]]]; try reflexivity.
  destruct (exists_last (l := second :: third :: rest)) as (mid & last & Hmid);
    [discriminate|].
  cbn [spec_simplify]. rewrite Hmid.
  replace (length (first :: mid ++ [last]) <=? 2) with false.
  2:{ symmetry. apply Nat.leb_gt. apply (f_equal length) in Hmid.
      simpl in *. rewrite length_app in *. simpl in *. lia. }
  replace (length (first :: mid ++ [last]) - 2) with (length mid)
    by (simpl; rewrite length_app; simpl; lia).
  change (first :: mid ++ [last]) with ([first] ++ mid ++ [last]).
  change [at_index ([first] ++ mid ++ [last]) 0] with ([] ++ [first]).
  change 1 with (length [first]) at 1.
  rewrite loop_refines_scan. reflexivity.
Qed.

(** When no interior point exceeds the tolerance, measured from the first
    point and to its successor, the scan keeps nothing but the last point:
    the previously kept point stays the first one throughout. *)
Lemma scan_within (first lastp : DrawPoint) (rest : list DrawPoint) :
  last rest = Some lastp →
  interior_within tol first rest = true →
  spec_scan tol first rest = [lastp].
Proof.
  induction rest as [|curr [|next tl] IH]; intros Hlast Hwithin.
  - discriminate.
  - simpl in *. congruence.
  - cbn [spec_scan]. cbn [interior_within] in Hwithin.
    apply andb_prop in Hwithin as [Hhere Hwithin].
    apply andb_prop in Hhere as [H1 H2].
    apply negb_true_iff in H1, H2. rewrite H1, H2. simpl.
    apply IH; [|done]. by rewrite last_cons_cons in Hlast.
Qed.

End SimplifyFacts.

(** C5. For every point sequence, [simplifyPath] equals the reference
    single-pass rule with tolerance 2: a sequence of length at most 2 is
    returned unchanged; otherwise the first point is kept, an interior
    point is kept iff its distance to the previously kept point or to the
    next raw point exceeds the tolerance, and the last point is kept. *)
Theorem simplifyPath_refines_spec (points : list DrawPoint) :
  Simplify.simplifyPath points = Simplify.spec_simplify 2%float points.
Proof. apply simplifyPath_tol_refines. Qed.

(** On five collinear points one pixel apart the loop drops the points at
    distance 1 and 2 from the first one and keeps the one at distance 3. *)
Example line5_simplified :
  Simplify.simplifyPath line5 = [mkPoint 0 0; mkPoint 3 0; mkPoint 4 0].
Proof. vm_compute. reflexivity. Qed.

(** C6, as stated, fails: five collinear points one pixel apart are spaced
    below the tolerance, yet the point at distance 3 from the first one is
    kept. *)
Lemma simplify_line5_keeps_interior :
  3 ≤ length line5 ∧
  collinear line5 = true ∧
  spaced_below Simplify.tolerance line5 = true ∧
  Simplify.simplifyPath line5 ≠ [mkPoint 0 0; mkPoint 4 0].
Proof.
  split_and!; [simpl; lia | by vm_compute | by vm_compute |].
  intros H. vm_compute in H. discriminate H.
Qed.

(** C6, amended. A sequence of length at most 2 is returned unchanged; and
    for every sequence of at least 3 points in which each interior point is
    within the tolerance of the first point and of the next raw point,
    [simplifyPath] returns only the first and the last point. *)
Theorem simplify_short_or_near (points : list DrawPoint) :
  (length points ≤ 2 → Simplify.simplifyPath points = points) ∧
  (∀ first rest lastp,
     points = first :: rest →
     2 ≤ length rest →
     last rest = Some lastp →
     interior_within Simplify.tolerance first rest = true →
     Simplify.simplifyPath points = [first; lastp]).
Proof.
  split.
  - intros Hlen. unfold Simplify.simplifyPath, Simplify.simplifyPath_tol.
    by apply Nat.leb_le in Hlen as ->.
  - intros first rest lastp -> Hlen Hlast Hwithin.
    unfold Simplify.simplifyPath. rewrite simplifyPath_tol_refines.
    destruct rest as [|second [|third rest]]; simpl in Hlen; [lia | lia |].
    cbn [Simplify.spec_simplify].
    by rewrite (scan_within _ first lastp).
Qed.

Lemma simplify_short_or_near_witness :
  Simplify.simplifyPath [mkPoint 0 0; mkPoint 1 0] = [mkPoint 0 0; mkPoint 1 0] ∧
  Simplify.simplifyPath [mkPoint 0 0; mkPoint 1 0; mkPoint 2 0; mkPoint 3 1]
    = [mkPoint 0 0; mkPoint 3 1].
Proof.
  split.
  - apply (proj1 (simplify_short_or_near [mkPoint 0 0; mkPoint 1 0])).
    simpl. lia.
  - apply (proj2 (simplify_short_or_near
                    [mkPoint 0 0; mkPoint 1 0; mkPoint 2 0; mkPoint 3 1])
             (mkPoint 0 0) [mkPoint 1 0; mkPoint 2 0; mkPoint 3 1] (mkPoint 3 1)).
    + reflexivity.
    + simpl. lia.
    + reflexivity.
    + vm_compute. reflexivity.
Defined.

(** * Properties of the session state *)

Section SessionFacts.
Import Session.

Lemma undoLastOperation_snoc (srv : DrawingState.t) (ops : list DrawingOperation)
    (op : DrawingOperation) :
  DrawingState.operations srv = ops ++ [op] →
  DrawingState.undoLastOperation srv =
    (Some op, DrawingState.mk ops (DrawingState.users srv) (DrawingState.colorIdx srv)).
Proof.
  intros Hops. unfold DrawingState.undoLastOperation. rewrite Hops.
  rewrite length_app. simpl.
  replace (length ops + 1 =? 0) with false by (symmetry; apply Nat.eqb_neq; lia).
  by rewrite last_snoc, removelast_last.
Qed.

Lemma undo_snoc (s : t) (ops : list DrawingOperation) (op : DrawingOperation) :
  log s = ops ++ [op] →
  undo s = (Some op,
            mk (DrawingState.mk ops (users s) (DrawingState.colorIdx (server s)))
               (CollaborativeCanvas.onUndo (op_id op) op (client s))).
Proof.
  intros Hlog. unfold undo. by rewrite (undoLastOperation_snoc _ ops op).
Qed.

Lemma undo_empty (s : t) : log s = [] → undo s = (None, s).
Proof.
  unfold log, undo, DrawingState.undoLastOperation. intros ->. simpl.
  by destruct s.
Qed.

Lemma filter_id_snoc (rs : list DrawingOperation) (op : DrawingOperation) :
  filter (λ o, op_id o ≠ op_id op) (rs ++ [op]) = filter (λ o, op_id o ≠ op_id op) rs.
Proof.
  rewrite filter_app, filter_cons_False by (intros ?; congruence).
  by rewrite filter_nil, app_nil_r.
Qed.

End SessionFacts.

(** C1. For every session state whose log is non-empty, [undo] followed by
    [redo] of the operation [undo] returned restores the log to its
    pre-undo content and order, and the redo buffer loses nothing but the
    entries carrying that operation's id. *)
Theorem undo_redo_round_trip (s : Session.t) :
  Session.log s ≠ [] →
  ∃ op s1,
    Session.undo s = (Some op, s1) ∧
    Session.log (Session.redo op s1) = Session.log s ∧
    Session.redoBuffer (Session.redo op s1) =
      filter (λ o, op_id o ≠ op_id op) (Session.redoBuffer s) ∧
    (∀ o, op_id o ≠ op_id op →
       (o ∈ Session.redoBuffer (Session.redo op s1) ↔ o ∈ Session.redoBuffer s1)) ∧
    Session.users (Session.redo op s1) = Session.users s.
Proof.
  intros Hne.
  destruct (exists_last Hne) as (ops & op & Hlog).
  eexists op, _. split; [by apply undo_snoc|].
  unfold Session.redo, Session.log, Session.redoBuffer, Session.users. simpl.
  rewrite filter_id_snoc.
  split_and!; [by rewrite <- Hlog | done | | done].
  intros o Ho. rewrite list_elem_of_filter, elem_of_app, list_elem_of_singleton.
  split; [tauto|]. intros [?| ->]; [tauto | congruence].
Qed.

(** C2, as stated, fails for the client that drew the operation.  The
    server sends the operation to everyone but its sender, so the issuer's
    redo stack is cleared only at its local commit.  An undo the server
    handled before the operation, whose broadcast reaches the issuer after
    that commit, is still in the issuer's stack when the operation enters
    the log: here the log is [[opA]] and Ann's redo stack is [[opB]], in
    the session run and when the same events are driven through the
    handlers and callbacks. *)
Lemma issuer_redoBuffer_survives_apply :
  Session.redoBuffer race_before_apply ≠ [] ∧
  Session.redoBuffer (Session.apply Session.Self opA race_before_apply) ≠ [] ∧
  Session.log (Session.apply Session.Self opA race_before_apply) = [opA] ∧
  DrawingState.operations <$> (Server.rooms race_applied !! "r1"%string) = Some [opA] ∧
  CollaborativeCanvas.redoStack (Client.history race_Ann) = [opB].
Proof.
  split_and!; [| | by vm_compute..]; intros H; vm_compute in H; discriminate H.
Qed.

(** C2, amended. For every session state with a non-empty redo buffer: a
    fresh operation drawn by another client leaves the client's redo buffer
    empty once the server has appended it and its broadcast has reached the
    client; the client's own fresh stroke empties its redo buffer when it
    is committed locally, before it is sent; and the server's append of
    that stroke puts it on the log and leaves the issuer's redo buffer as
    it is at that moment. *)
Theorem apply_empties_redoBuffer (op : DrawingOperation) (s : Session.t) :
  Session.redoBuffer s ≠ [] →
  (Session.redoBuffer (Session.apply Session.Peer op s) = [] ∧
   Session.log (Session.apply Session.Peer op s) = Session.log s ++ [op]) ∧
  (Session.redoBuffer (Session.commit op s) = [] ∧
   Session.log (Session.commit op s) = Session.log s) ∧
  (Session.redoBuffer (Session.apply Session.Self op s) = Session.redoBuffer s ∧
   Session.log (Session.apply Session.Self op s) = Session.log s ++ [op]).
Proof. intros _. done. Qed.

(** C3. For every session state and every operation present in the redo
    buffer, [redo] appends the operation at the tail of the log and removes
    the entries with its id from the redo buffer, keeping the others. *)
Theorem redo_appends_and_removes (op : DrawingOperation) (s : Session.t) :
  op ∈ Session.redoBuffer s →
  Session.log (Session.redo op s) = Session.log s ++ [op] ∧
  Session.redoBuffer (Session.redo op s) =
    filter (λ o, op_id o ≠ op_id op) (Session.redoBuffer s) ∧
  (op ∉ Session.redoBuffer (Session.redo op s)) ∧
  (∀ o, o ∈ Session.redoBuffer (Session.redo op s) ↔
        o ∈ Session.redoBuffer s ∧ op_id o ≠ op_id op).
Proof.
  intros _. unfold Session.redo, Session.log, Session.redoBuffer. simpl.
  split_and!; [done | done | |].
  - rewrite list_elem_of_filter. tauto.
  - intros o. rewrite list_elem_of_filter. tauto.
Qed.

(** C7. For every session state with an empty log, [undo] returns no
    operation and leaves the whole session state (log, redo buffer, users)
    unchanged. *)
Theorem undo_empty_log_noop (s : Session.t) :
  Session.log s = [] →
  Session.undo s = (None, s).
Proof. apply undo_empty. Qed.

(** C8. For every session state, [clear] empties the log and the redo
    buffer, leaves the users mapping unchanged, and an [undo] right after
    it returns nothing and changes nothing. *)
Theorem clear_empties_history (s : Session.t) :
  Session.log (Session.clear s) = [] ∧
  Session.redoBuffer (Session.clear s) = [] ∧
  Session.users (Session.clear s) = Session.users s ∧
  Session.undo (Session.clear s) = (None, Session.clear s).
Proof. split_and!; first [done | by apply undo_empty]. Qed.

(** ** Uniqueness of ids in the log *)

Section LogIds.
Import Session.

Lemma ids_distinct_log (s : t) : ids_distinct s → NoDup (op_id <$> log s).
Proof.
  unfold ids_distinct. rewrite fmap_app, NoDup_app. tauto.
Qed.

Lemma undo_ids_distinct (s : t) : ids_distinct s → ids_distinct (undo s).2.
Proof.
  intros Hinv.
  destruct (decide (log s = [])) as [Hempty|Hne].
  - by rewrite undo_empty.
  - destruct (exists_last Hne) as (ops & op & Hlog).
    rewrite (undo_snoc s ops op Hlog).
    unfold ids_distinct in *. rewrite Hlog in Hinv.
    unfold log, redoBuffer. simpl.
    eapply NoDup_Permutation_proper; [|exact Hinv].
    rewrite !fmap_app. simpl.
    rewrite <- !app_assoc. apply Permutation_app_head.
    apply Permutation_app_comm.
Qed.

Lemma push_log_NoDup (op : DrawingOperation) (ops : list DrawingOperation) :
  op_id op ∉ op_id <$> ops → NoDup (op_id <$> ops) → NoDup (op_id <$> (ops ++ [op])).
Proof.
  intros Hfresh Hnd. rewrite fmap_app, NoDup_app.
  split_and!; [done | | apply NoDup_singleton].
  intros x Hx ->%list_elem_of_singleton. done.
Qed.

Lemma undo_log_NoDup (s : t) :
  NoDup (op_id <$> log s) → NoDup (op_id <$> log (undo s).2).
Proof.
  intros Hnd. destruct (decide (log s = [])) as [Hempty|Hne].
  - by rewrite undo_empty.
  - destruct (exists_last Hne) as (ops & op & Hlog).
    rewrite (undo_snoc s ops op Hlog). rewrite Hlog, fmap_app, NoDup_app in Hnd.
    by destruct Hnd as [Hops _].
Qed.

Lemma step_log_NoDup (s : t) (e : Event) :
  admissible s e → NoDup (op_id <$> log s) → NoDup (op_id <$> log (step s e)).
Proof.
  destruct e; simpl; intros Hadm Hnd.
  - done.
  - destruct from; by apply push_log_NoDup.
  - by apply undo_log_NoDup.
  - by apply push_log_NoDup.
  - constructor.
  - done.
  - done.
  - unfold moveCursor, DrawingState.updateUserCursor, log in *. simpl.
    by destruct (_ !! _).
Qed.

Lemma run_log_NoDup (evs : list Event) (s : t) :
  admissible_from s evs → NoDup (op_id <$> log s) →
  NoDup (op_id <$> log (fold_left step evs s)).
Proof.
  revert s. induction evs as [|e evs IH]; intros s; simpl; [done|].
  intros [Hadm Hrest] Hnd. apply IH; [done|]. by apply step_log_NoDup.
Qed.

End LogIds.

(** C4, as stated, fails: the server pushes whatever it is sent.  A second
    ['redo'] of an operation that has already been redone (the redo button
    pressed twice before the first answer arrives, or two clients pressing
    it), or the same operation applied twice, leaves two entries with one id
    in the log. *)
Lemma duplicate_ids_reachable :
  ¬ NoDup (op_id <$> Session.log
             (Session.run [Session.EApply Session.Peer opA; Session.EUndo;
                           Session.ERedo opA; Session.ERedo opA])) ∧
  ¬ NoDup (op_id <$> Session.log
             (Session.run [Session.EApply Session.Self opA;
                           Session.EApply Session.Self opA])).
Proof.
  split; intros Hnd; vm_compute in Hnd;
    apply NoDup_cons in Hnd as [Hnotin _]; apply Hnotin; left.
Qed.

(** C4, amended. For every session state reachable from the empty state by
    a sequence of apply, undo, redo, clear, join, leave and moveCursor in
    which every operation handed to apply or to redo carries an id that is
    not in the log when the server handles it, the log never contains two
    operations with the same id. *)
Theorem log_ids_unique (evs : list Session.Event) :
  Session.admissible_from Session.init evs →
  NoDup (op_id <$> Session.log (Session.run evs)).
Proof.
  intros Hadm. apply run_log_NoDup; [done | constructor].
Qed.

(** * Properties of the room registry *)

Section RegistryFacts.
Import RoomManager.

Lemma getUsers_length_0 (room : DrawingState.t) :
  (length (DrawingState.getUsers room) =? 0) = true ↔ DrawingState.users room = ∅.
Proof.
  unfold DrawingState.getUsers.
  rewrite Nat.eqb_eq, length_fmap, length_map_to_list.
  apply map_size_empty_iff.
Qed.

Lemma deleteRoomIfEmpty_empty (roomId : string) (room : DrawingState.t) (rooms : t) :
  rooms !! roomId = Some room → DrawingState.users room = ∅ →
  deleteRoomIfEmpty roomId rooms = (true, delete roomId rooms).
Proof.
  intros Hroom Hempty%getUsers_length_0. unfold deleteRoomIfEmpty.
  by rewrite Hroom, Hempty.
Qed.

Lemma deleteRoomIfEmpty_occupied (roomId : string) (room : DrawingState.t) (rooms : t) :
  rooms !! roomId = Some room → DrawingState.users room ≠ ∅ →
  deleteRoomIfEmpty roomId rooms = (false, rooms).
Proof.
  intros Hroom Hne. unfold deleteRoomIfEmpty. rewrite Hroom.
  destruct (_ =? 0) eqn:Hlen; [|done].
  by apply getUsers_length_0 in Hlen.
Qed.

Lemma deleteRoomIfEmpty_absent (roomId : string) (rooms : t) :
  rooms !! roomId = None → deleteRoomIfEmpty roomId rooms = (false, rooms).
Proof. intros Hroom. unfold deleteRoomIfEmpty. by rewrite Hroom. Qed.

Lemma getAllRoomIds_elem (roomId : string) (rooms : t) :
  roomId ∈ getAllRoomIds rooms ↔ is_Some (rooms !! roomId).
Proof.
  unfold getAllRoomIds. rewrite list_elem_of_fmap. split.
  - intros ([k room] & -> & Hin%elem_of_map_to_list). by eexists.
  - intros [room Hroom]. exists (roomId, room). split; [done|].
    by apply elem_of_map_to_list.
Qed.

(** A join into a room without users followed by the same connection's
    disconnect leaves the room without users, so it is released. *)
Lemma join_then_disconnect (roomId userName socketId : string) (rooms : t) :
  (∀ room, rooms !! roomId = Some room → DrawingState.users room = ∅) →
  on_disconnect roomId socketId (on_join_room roomId userName socketId rooms).2
  = (true, delete roomId rooms).
Proof.
  intros Hfree.
  unfold on_disconnect, on_join_room, update, getRoom.
  destruct (rooms !! roomId) as [room|] eqn:Hroom; simpl;
    rewrite lookup_insert_eq; simpl.
  - rewrite insert_insert_eq.
    erewrite deleteRoomIfEmpty_empty; [| apply lookup_insert_eq |].
    + by rewrite delete_insert_eq.
    + simpl. rewrite (Hfree room eq_refl), delete_insert_eq. apply delete_empty.
  - rewrite !insert_insert_eq.
    erewrite deleteRoomIfEmpty_empty; [| apply lookup_insert_eq |].
    + by rewrite delete_insert_eq.
    + simpl. rewrite delete_insert_eq. apply delete_empty.
Qed.

End RegistryFacts.

(** C9. For every registry state and every room id, [deleteRoomIfEmpty]
    removes the room's state iff the room exists with an empty users
    mapping, and returns true exactly then; otherwise it returns false and
    leaves the registry unchanged.  In particular, when a connection joins
    a room that has no other user and then leaves, the call returns true
    and the room is no longer listed. *)
Theorem deleteRoomIfEmpty_iff_empty (roomId : string) (rooms : RoomManager.t) :
  ((RoomManager.deleteRoomIfEmpty roomId rooms).1 = true ↔
     ∃ room, rooms !! roomId = Some room ∧ DrawingState.users room = ∅) ∧
  ((RoomManager.deleteRoomIfEmpty roomId rooms).1 = true →
     (RoomManager.deleteRoomIfEmpty roomId rooms).2 = delete roomId rooms) ∧
  ((RoomManager.deleteRoomIfEmpty roomId rooms).1 = false →
     (RoomManager.deleteRoomIfEmpty roomId rooms).2 = rooms) ∧
  (∀ userName socketId,
     (∀ room, rooms !! roomId = Some room → DrawingState.users room = ∅) →
     let joined := (RoomManager.on_join_room roomId userName socketId rooms).2 in
     (RoomManager.on_disconnect roomId socketId joined).1 = true ∧
     roomId ∉ RoomManager.getAllRoomIds
                (RoomManager.on_disconnect roomId socketId joined).2).
Proof.
  split_and!.
  - destruct (rooms !! roomId) as [room|] eqn:Hroom.
    + destruct (decide (DrawingState.users room = ∅)) as [Hempty|Hne].
      * rewrite (deleteRoomIfEmpty_empty _ room) by done. simpl.
        split; [eauto | done].
      * rewrite (deleteRoomIfEmpty_occupied _ room) by done. simpl.
        split; [done|]. intros (room' & [= <-] & Hempty). done.
    + rewrite deleteRoomIfEmpty_absent by done. simpl.
      split; [done|]. by intros (room' & [=] & _).
  - unfold RoomManager.deleteRoomIfEmpty.
    destruct (rooms !! roomId); [destruct (_ =? 0)|]; simpl; done.
  - unfold RoomManager.deleteRoomIfEmpty.
    destruct (rooms !! roomId); [destruct (_ =? 0)|]; simpl; done.
  - intros userName socketId Hfree joined. subst joined.
    rewrite join_then_disconnect by done. simpl.
    split; [done|]. rewrite getAllRoomIds_elem, lookup_delete_eq.
    by intros [? [=]].
Qed.

(** * Joining with an id that is already registered *)

Lemma userColors_NoDup : NoDup DrawingState.userColors.
Proof. apply (bool_decide_unpack _). by vm_compute. Qed.

(** C10. For every session state, [addUser] with a user id already in the
    users mapping replaces that user's record, leaves every other record
    and the user count as they were, and still advances the palette index;
    the new record gets the colour at the current index, which differs from
    the old colour whenever the old one sits at another palette position. *)
Theorem addUser_existing_replaces (userId userName : string) (s : DrawingState.t)
    (old : User) :
  DrawingState.users s !! userId = Some old →
  let user := (DrawingState.addUser userId userName s).1 in
  let s' := (DrawingState.addUser userId userName s).2 in
  user = mkUser userId userName
           (nth (DrawingState.colorIdx s mod 8) DrawingState.userColors ""%string)
           None None ∧
  DrawingState.users s' !! userId = Some user ∧
  (∀ other, other ≠ userId →
     DrawingState.users s' !! other = DrawingState.users s !! other) ∧
  size (DrawingState.users s') = size (DrawingState.users s) ∧
  length (DrawingState.getUsers s') = length (DrawingState.getUsers s) ∧
  DrawingState.colorIdx s' = DrawingState.colorIdx s + 1 ∧
  DrawingState.operations s' = DrawingState.operations s ∧
  (∀ j, j < 8 → j ≠ DrawingState.colorIdx s mod 8 →
     user_color old = nth j DrawingState.userColors ""%string →
     user_color user ≠ user_color old).
Proof.
  intros Hold user s'. subst user s'.
  unfold DrawingState.addUser. change (length DrawingState.userColors) with 8.
  cbn [fst snd DrawingState.users DrawingState.colorIdx DrawingState.operations
       user_color].
  assert (Hsize : size (<[userId := mkUser userId userName
                    (nth (DrawingState.colorIdx s mod 8) DrawingState.userColors ""%string)
                    None None]> (DrawingState.users s))
                  = size (DrawingState.users s)).
  { by apply map_size_insert_Some. }
  split_and!; try done.
  - apply lookup_insert_eq.
  - intros other Hne. by apply lookup_insert_ne.
  - unfold DrawingState.getUsers. cbn [DrawingState.users].
    by rewrite !length_fmap, !length_map_to_list.
  - intros j Hj Hne -> Heq.
    rewrite !nth_lookup in Heq.
    assert (Hk : DrawingState.colorIdx s mod 8 < 8) by (apply Nat.mod_upper_bound; lia).
    destruct (lookup_lt_is_Some_2 DrawingState.userColors j) as [c Hc]; [done|].
    destruct (lookup_lt_is_Some_2 DrawingState.userColors
                (DrawingState.colorIdx s mod 8)) as [c' Hc']; [done|].
    rewrite Hc, Hc' in Heq. simpl in Heq. subst c'.
    apply Hne. by eapply NoDup_lookup; [apply userColors_NoDup | |].
Qed.

(** * Witnesses and scenarios on concrete sessions *)

Lemma undo_redo_round_trip_witness :
  ∃ op s1,
    Session.undo session_AB = (Some op, s1) ∧
    Session.log (Session.redo op s1) = Session.log session_AB ∧
    Session.redoBuffer (Session.redo op s1) =
      filter (λ o, op_id o ≠ op_id op) (Session.redoBuffer session_AB) ∧
    (∀ o, op_id o ≠ op_id op →
       (o ∈ Session.redoBuffer (Session.redo op s1) ↔ o ∈ Session.redoBuffer s1)) ∧
    Session.users (Session.redo op s1) = Session.users session_AB.
Proof.
  apply (undo_redo_round_trip session_AB).
  vm_compute. discriminate.
Defined.

Lemma apply_empties_redoBuffer_witness :
  (Session.redoBuffer (Session.apply Session.Peer opB session_undone) = [] ∧
   Session.log (Session.apply Session.Peer opB session_undone)
     = Session.log session_undone ++ [opB]) ∧
  (Session.redoBuffer (Session.commit opB session_undone) = [] ∧
   Session.log (Session.commit opB session_undone) = Session.log session_undone) ∧
  (Session.redoBuffer (Session.apply Session.Self opB session_undone)
     = Session.redoBuffer session_undone ∧
   Session.log (Session.apply Session.Self opB session_undone)
     = Session.log session_undone ++ [opB]).
Proof.
  apply (apply_empties_redoBuffer opB session_undone).
  vm_compute. discriminate.
Defined.

Lemma redo_appends_and_removes_witness :
  Session.log (Session.redo opA session_undone) = Session.log session_undone ++ [opA] ∧
  Session.redoBuffer (Session.redo opA session_undone) =
    filter (λ o, op_id o ≠ op_id opA) (Session.redoBuffer session_undone) ∧
  (opA ∉ Session.redoBuffer (Session.redo opA session_undone)) ∧
  (∀ o, o ∈ Session.redoBuffer (Session.redo opA session_undone) ↔
        o ∈ Session.redoBuffer session_undone ∧ op_id o ≠ op_id opA).
Proof.
  apply (redo_appends_and_removes opA session_undone).
  vm_compute. left.
Defined.

Lemma undo_empty_log_noop_witness :
  Session.undo session_joined = (None, session_joined).
Proof.
  apply (undo_empty_log_noop session_joined). reflexivity.
Defined.

Lemma log_ids_unique_witness :
  NoDup (op_id <$> Session.log (Session.run trace_ok)).
Proof.
  apply (log_ids_unique trace_ok).
  unfold trace_ok. cbn [Session.admissible_from Session.admissible].
  split_and!; try exact I.
  - vm_compute. by intros ?%elem_of_nil.
  - apply (bool_decide_unpack _). by vm_compute.
  - vm_compute. by intros ?%elem_of_nil.
  - apply (bool_decide_unpack _). by vm_compute.
Defined.

Lemma deleteRoomIfEmpty_iff_empty_witness :
  (RoomManager.on_disconnect "r1" "sockA"
     (RoomManager.on_join_room "r1" "Ann" "sockA" RoomManager.init).2).1 = true ∧
  "r1"%string ∉ RoomManager.getAllRoomIds
    (RoomManager.on_disconnect "r1" "sockA"
       (RoomManager.on_join_room "r1" "Ann" "sockA" RoomManager.init).2).2.
Proof.
  apply (proj2 (proj2 (proj2 (deleteRoomIfEmpty_iff_empty "r1" RoomManager.init)))
           "Ann"%string "sockA"%string).
  intros room Hroom. vm_compute in Hroom. discriminate Hroom.
Defined.

Lemma addUser_existing_replaces_witness :
  (DrawingState.addUser "sockA" "Ann again" state_Ann).1
    = mkUser "sockA" "Ann again" "#4ECDC4" None None ∧
  size (DrawingState.users (DrawingState.addUser "sockA" "Ann again" state_Ann).2)
    = size (DrawingState.users state_Ann) ∧
  DrawingState.colorIdx (DrawingState.addUser "sockA" "Ann again" state_Ann).2 = 2 ∧
  user_color (DrawingState.addUser "sockA" "Ann again" state_Ann).1 ≠ "#FF6B6B"%string.
Proof.
  pose proof (addUser_existing_replaces "sockA" "Ann again" state_Ann
                (mkUser "sockA" "Ann" "#FF6B6B" None None) eq_refl)
    as (Huser & _ & _ & Hsize & _ & Hidx & _ & Hcolor).
  split_and!; [exact Huser | exact Hsize | exact Hidx |].
  apply (Hcolor 0); [lia | vm_compute; lia | reflexivity].
Defined.

(** Scenario of the specification: [apply(op1)], [apply(op2)], [undo()]
    returns [op2], with [log = [op1]] and [redoBuffer = [op2]]. *)
Example scenario_apply_apply_undo :
  (Session.undo session_AB).1 = Some opB ∧
  Session.log (Session.undo session_AB).2 = [opA] ∧
  Session.redoBuffer (Session.undo session_AB).2 = [opB].
Proof. by vm_compute. Qed.

(** Scenario: A joins, applies [opA], B joins; B's snapshot holds [opA] and
    both users. *)
Example scenario_late_joiner :
  let s := Session.run [Session.EJoin "sockA" "Ann"; Session.EApply Session.Peer opA;
                        Session.EJoin "sockB" "Bob"] in
  DrawingState.getAllOperations (Session.server s) = [opA] ∧
  user_name <$> Session.users s !! "sockA"%string = Some "Ann"%string ∧
  user_name <$> Session.users s !! "sockB"%string = Some "Bob"%string ∧
  length (DrawingState.getUsers (Session.server s)) = 2.
Proof. by vm_compute. Qed.

(** On a log without duplicate ids the client's copy of the history follows
    the server's log through an undo. *)
Example scenario_replica_follows_log :
  CollaborativeCanvas.canvasOperations (Session.client (Session.undo session_AB).2)
  = Session.log (Session.undo session_AB).2.
Proof. by vm_compute. Qed.

(** * Further properties of the path simplifier *)

Section SimplifyShape.
Import Simplify.
Variable tol : float.

Lemma spec_scan_cons2 (kept curr next : DrawPoint) (tl : list DrawPoint) :
  spec_scan tol kept (curr :: next :: tl) =
  if exceeds tol (dist kept curr) || exceeds tol (dist curr next)
  then curr :: spec_scan tol curr (next :: tl)
  else spec_scan tol kept (next :: tl).
Proof. reflexivity. Qed.

Lemma spec_scan_sublist (kept : DrawPoint) (rest : list DrawPoint) :
  spec_scan tol kept rest `sublist_of` rest.
Proof.
  revert kept. induction rest as [|curr [|next tl] IH]; intros kept.
  - constructor.
  - reflexivity.
  - rewrite spec_scan_cons2. destruct (_ || _).
    + apply sublist_skip, IH.
    + apply sublist_cons, IH.
Qed.

Lemma spec_scan_nonempty (kept : DrawPoint) (rest : list DrawPoint) :
  rest ≠ [] → spec_scan tol kept rest ≠ [].
Proof.
  revert kept. induction rest as [|curr [|next tl] IH]; intros kept Hne; try done.
  rewrite spec_scan_cons2. destruct (_ || _); [done|]. by apply IH.
Qed.

Lemma spec_scan_last (kept : DrawPoint) (rest : list DrawPoint) :
  last (spec_scan tol kept rest) = last rest.
Proof.
  revert kept. induction rest as [|curr [|next tl] IH]; intros kept; try done.
  rewrite last_cons_cons, spec_scan_cons2.
  destruct (_ || _); [|apply IH].
  pose proof (spec_scan_nonempty curr (next :: tl)) as Hne.
  rewrite <- (IH curr).
  destruct (spec_scan tol curr (next :: tl)); [by destruct Hne|].
  by rewrite last_cons_cons.
Qed.

Lemma interior_far_cons2 (curr next : DrawPoint) (tl : list DrawPoint) :
  interior_far tol (curr :: next :: tl) =
  exceeds tol (dist curr next) && interior_far tol (next :: tl).
Proof. reflexivity. Qed.

Lemma spec_scan_all_far (kept : DrawPoint) (rest : list DrawPoint) :
  interior_far tol rest = true → spec_scan tol kept rest = rest.
Proof.
  revert kept. induction rest as [|curr [|next tl] IH]; intros kept Hfar; try done.
  rewrite interior_far_cons2 in Hfar.
  apply andb_prop in Hfar as [Hhere Hfar].
  rewrite spec_scan_cons2, Hhere, orb_true_r. f_equal. by apply IH.
Qed.

Lemma spec_simplify_sublist (points : list DrawPoint) :
  spec_simplify tol points `sublist_of` points.
Proof.
  destruct points as [|first [|second [|third rest]]]; try reflexivity.
  cbn [spec_simplify]. apply sublist_skip, spec_scan_sublist.
Qed.

Lemma spec_simplify_ends (points : list DrawPoint) :
  head (spec_simplify tol points) = head points ∧
  last (spec_simplify tol points) = last points.
Proof.
  destruct points as [|first [|second [|third rest]]]; try done.
  cbn [spec_simplify]. split; [done|].
  pose proof (spec_scan_nonempty first (second :: third :: rest)) as Hne.
  pose proof (spec_scan_last first (second :: third :: rest)) as Hlast.
  destruct (spec_scan tol first (second :: third :: rest)) as [|p ps];
    [by destruct Hne|].
  by rewrite !last_cons_cons in *.
Qed.

End SimplifyShape.

Lemma simplifyPath_keeps_ends_aux (points : list DrawPoint) :
  head (Simplify.simplifyPath points) = head points ∧
  last (Simplify.simplifyPath points) = last points.
Proof.
  unfold Simplify.simplifyPath. rewrite simplifyPath_tol_refines.
  apply spec_simplify_ends.
Qed.

(** X1. The simplified path is an order-preserving subsequence of the raw
    path: no point is invented, moved or reordered, and the result is never
    longer than the input. *)
Theorem simplifyPath_sublist (points : list DrawPoint) :
  Simplify.simplifyPath points `sublist_of` points ∧
  length (Simplify.simplifyPath points) ≤ length points.
Proof.
  assert (Hsub : Simplify.simplifyPath points `sublist_of` points).
  { unfold Simplify.simplifyPath. rewrite simplifyPath_tol_refines.
    apply spec_simplify_sublist. }
  split; [done | by apply sublist_length].
Qed.

(** X2. The simplified path starts and ends where the raw path does, and a
    raw path of at least two points keeps at least two points. *)
Theorem simplifyPath_keeps_ends (points : list DrawPoint) :
  head (Simplify.simplifyPath points) = head points ∧
  last (Simplify.simplifyPath points) = last points ∧
  (2 ≤ length points → 2 ≤ length (Simplify.simplifyPath points)).
Proof.
  unfold Simplify.simplifyPath. rewrite simplifyPath_tol_refines.
  destruct (spec_simplify_ends Simplify.tolerance points) as [Hhead Hlast].
  split_and!; [done | done |].
  destruct points as [|first [|second [|third rest]]];
    cbn [Simplify.spec_simplify length]; try lia.
  intros _.
  pose proof (spec_scan_nonempty Simplify.tolerance first (second :: third :: rest)) as Hne.
  destruct (Simplify.spec_scan _ _ _); [by destruct Hne | cbn [length]; lia].
Qed.

(** X3. A stroke in which every interior point is farther than the
    tolerance from the raw point after it is returned unchanged. *)
Theorem simplifyPath_far_unchanged (points : list DrawPoint) :
  interior_far Simplify.tolerance (tail points) = true →
  Simplify.simplifyPath points = points.
Proof.
  intros Hfar. unfold Simplify.simplifyPath. rewrite simplifyPath_tol_refines.
  destruct points as [|first [|second [|third rest]]]; try done.
  cbn [Simplify.spec_simplify]. f_equal. by apply spec_scan_all_far.
Qed.

Lemma simplifyPath_far_unchanged_witness :
  Simplify.simplifyPath [mkPoint 0 0; mkPoint 1 0; mkPoint 4 4; mkPoint 8 1; mkPoint 8 5]
  = [mkPoint 0 0; mkPoint 1 0; mkPoint 4 4; mkPoint 8 1; mkPoint 8 5].
Proof.
  apply (simplifyPath_far_unchanged
           [mkPoint 0 0; mkPoint 1 0; mkPoint 4 4; mkPoint 8 1; mkPoint 8 5]).
  vm_compute. reflexivity.
Defined.

(** * Further properties of the room state *)

Section DrawingStateFacts.
Import DrawingState.

Lemma palette_colour_elem (i : nat) : nth (i mod 8) userColors ""%string ∈ userColors.
Proof.
  assert (Hlt : i mod 8 < length userColors)
    by (change (length userColors) with 8; apply Nat.mod_upper_bound; lia).
  rewrite nth_lookup.
  destruct (lookup_lt_is_Some_2 userColors (i mod 8) Hlt) as [c Hc].
  rewrite Hc. simpl. by eapply list_elem_of_lookup_2.
Qed.

End DrawingStateFacts.

(** X4. [addUser] with an id that is not registered adds one record: the
    user count grows by one, the new record carries the palette colour at
    the current index, and every other record, the log and the other fields
    are as before, apart from the palette index, which advances. *)
Theorem addUser_fresh (userId userName : string) (s : DrawingState.t) :
  DrawingState.users s !! userId = None →
  let user := (DrawingState.addUser userId userName s).1 in
  let s' := (DrawingState.addUser userId userName s).2 in
  size (DrawingState.users s') = S (size (DrawingState.users s)) ∧
  DrawingState.users s' !! userId = Some user ∧
  user_color user
    = nth (DrawingState.colorIdx s mod 8) DrawingState.userColors ""%string ∧
  cursorX user = None ∧ cursorY user = None ∧
  (∀ other, other ≠ userId →
     DrawingState.users s' !! other = DrawingState.users s !! other) ∧
  DrawingState.operations s' = DrawingState.operations s ∧
  DrawingState.colorIdx s' = DrawingState.colorIdx s + 1.
Proof.
  intros Hfresh user s'. subst user s'. unfold DrawingState.addUser.
  change (length DrawingState.userColors) with 8.
  cbn [fst snd DrawingState.users DrawingState.colorIdx DrawingState.operations
       user_color cursorX cursorY].
  split_and!; try done.
  - by apply map_size_insert_None.
  - apply lookup_insert_eq.
  - intros other Hne. by apply lookup_insert_ne.
Qed.

Lemma addUser_fresh_witness :
  size (DrawingState.users (DrawingState.addUser "sockB" "Bob" state_Ann).2) = 2 ∧
  user_color (DrawingState.addUser "sockB" "Bob" state_Ann).1 = "#4ECDC4"%string.
Proof.
  pose proof (addUser_fresh "sockB" "Bob" state_Ann eq_refl)
    as (Hsize & _ & Hcolor & _).
  split; [exact Hsize | exact Hcolor].
Defined.

(** X5. [removeUser] of an id that is not registered changes nothing; of a
    registered id it removes exactly that record, and in both cases the log
    and the palette index are untouched. *)
Theorem removeUser_spec (userId : string) (s : DrawingState.t) :
  (DrawingState.users s !! userId = None → DrawingState.removeUser userId s = s) ∧
  (is_Some (DrawingState.users s !! userId) →
     S (size (DrawingState.users (DrawingState.removeUser userId s)))
       = size (DrawingState.users s)) ∧
  DrawingState.users (DrawingState.removeUser userId s) !! userId = None ∧
  (∀ other, other ≠ userId →
     DrawingState.users (DrawingState.removeUser userId s) !! other
       = DrawingState.users s !! other) ∧
  DrawingState.operations (DrawingState.removeUser userId s) = DrawingState.operations s ∧
  DrawingState.colorIdx (DrawingState.removeUser userId s) = DrawingState.colorIdx s.
Proof.
  unfold DrawingState.removeUser. simpl. split_and!; try done.
  - intros Hnone. rewrite delete_id by done. by destruct s.
  - intros [u Hu]. rewrite (map_size_delete userId), Hu.
    assert (size (DrawingState.users s) ≠ 0); [|lia].
    intros Hz%map_size_empty_iff. by rewrite Hz, lookup_empty in Hu.
  - apply lookup_delete_eq.
  - intros other Hne. by apply lookup_delete_ne.
Qed.

Lemma removeUser_spec_witness :
  DrawingState.removeUser "sockB" state_Ann = state_Ann ∧
  S (size (DrawingState.users (DrawingState.removeUser "sockA" state_Ann)))
    = size (DrawingState.users state_Ann).
Proof.
  pose proof (removeUser_spec "sockB" state_Ann) as (Hnoop & _).
  pose proof (removeUser_spec "sockA" state_Ann) as (_ & Hsize & _).
  split.
  - apply Hnoop. reflexivity.
  - apply Hsize. vm_compute. eexists. reflexivity.
Defined.

(** X6. A user who joins under a fresh id and leaves again leaves the users
    mapping and the log exactly as they were; only the palette index stays
    advanced, so the next joiner gets the following colour. *)
Theorem join_leave_restores (userId userName : string) (s : DrawingState.t) :
  DrawingState.users s !! userId = None →
  DrawingState.removeUser userId (DrawingState.addUser userId userName s).2
  = DrawingState.mk (DrawingState.operations s) (DrawingState.users s)
                    (DrawingState.colorIdx s + 1).
Proof.
  intros Hfresh. unfold DrawingState.removeUser, DrawingState.addUser. simpl.
  f_equal. rewrite delete_insert_eq. by apply delete_id.
Qed.

Lemma join_leave_restores_witness :
  DrawingState.removeUser "sockB" (DrawingState.addUser "sockB" "Bob" state_Ann).2
  = DrawingState.mk (DrawingState.operations state_Ann) (DrawingState.users state_Ann)
                    (DrawingState.colorIdx state_Ann + 1).
Proof. apply (join_leave_restores "sockB" "Bob" state_Ann). reflexivity. Defined.

(** X7. [updateUserCursor] for an id that is not registered changes
    nothing.  For a registered id it stores the position in that user's
    record, keeps the record's id, name and colour, leaves the set of
    registered ids, every other record, the log and the palette index as
    they were. *)
Theorem updateUserCursor_spec (userId : string) (x y : float) (s : DrawingState.t) :
  (DrawingState.users s !! userId = None →
     DrawingState.updateUserCursor userId x y s = s) ∧
  (∀ u, DrawingState.users s !! userId = Some u →
     DrawingState.users (DrawingState.updateUserCursor userId x y s) !! userId
       = Some (mkUser (user_id u) (user_name u) (user_color u) (Some x) (Some y))) ∧
  dom (DrawingState.users (DrawingState.updateUserCursor userId x y s))
    = dom (DrawingState.users s) ∧
  (∀ other, other ≠ userId →
     DrawingState.users (DrawingState.updateUserCursor userId x y s) !! other
       = DrawingState.users s !! other) ∧
  DrawingState.operations (DrawingState.updateUserCursor userId x y s)
    = DrawingState.operations s ∧
  DrawingState.colorIdx (DrawingState.updateUserCursor userId x y s)
    = DrawingState.colorIdx s.
Proof.
  unfold DrawingState.updateUserCursor.
  destruct (DrawingState.users s !! userId) as [u|] eqn:Hu; simpl.
  - split_and!; try done.
    + intros u' [= <-]. apply lookup_insert_eq.
    + apply dom_insert_lookup_L. by rewrite Hu.
    + intros other Hne. by apply lookup_insert_ne.
  - split_and!; done.
Qed.

Lemma updateUserCursor_spec_witness :
  DrawingState.updateUserCursor "sockB" 3 4 state_Ann = state_Ann ∧
  DrawingState.users (DrawingState.updateUserCursor "sockA" 3 4 state_Ann) !! "sockA"%string
    = Some (mkUser "sockA" "Ann" "#FF6B6B" (Some 3%float) (Some 4%float)).
Proof.
  pose proof (updateUserCursor_spec "sockB" 3 4 state_Ann) as (Hnoop & _).
  pose proof (updateUserCursor_spec "sockA" 3 4 state_Ann) as (_ & Hset & _).
  split.
  - apply Hnoop. reflexivity.
  - apply (Hset (mkUser "sockA" "Ann" "#FF6B6B" None None)). reflexivity.
Defined.

(** X8. Undoing right after an operation was appended returns that
    operation and restores the room state exactly. *)
Theorem addOperation_undo (op : DrawingOperation) (s : DrawingState.t) :
  DrawingState.undoLastOperation (DrawingState.addOperation op s) = (Some op, s).
Proof.
  rewrite (undoLastOperation_snoc _ (DrawingState.operations s) op) by done.
  by destruct s.
Qed.

(** X9. Whenever [undoLastOperation] returns an operation, it is the last
    entry of the log whoever drew it, the log loses exactly that entry, and
    users and palette index are untouched; it returns nothing only on an
    empty log. *)
Theorem undoLastOperation_spec (s : DrawingState.t) :
  match DrawingState.undoLastOperation s with
  | (Some op, s') =>
      DrawingState.operations s = DrawingState.operations s' ++ [op] ∧
      DrawingState.getOperationCount s = S (DrawingState.getOperationCount s') ∧
      DrawingState.users s' = DrawingState.users s ∧
      DrawingState.colorIdx s' = DrawingState.colorIdx s
  | (None, s') => DrawingState.operations s = [] ∧ s' = s
  end.
Proof.
  destruct (decide (DrawingState.operations s = [])) as [Hnil|Hne].
  - unfold DrawingState.undoLastOperation. by rewrite Hnil.
  - destruct (exists_last Hne) as (ops & op & Hops).
    rewrite (undoLastOperation_snoc s ops op Hops).
    unfold DrawingState.getOperationCount. rewrite Hops, length_app. simpl.
    split_and!; [done | lia | done | done].
Qed.

(** * Further properties of sessions *)

Section SessionRuns.
Import Session.

Lemma run_snoc (evs : list Event) (e : Event) : run (evs ++ [e]) = step (run evs) e.
Proof. unfold run. by rewrite fold_left_app. Qed.

Lemma step_presence (s : t) (e : Event) :
  is_history e = false →
  log (step s e) = log s ∧ client (step s e) = client s.
Proof.
  destruct e; try discriminate; intros _; simpl; try done.
  unfold moveCursor, DrawingState.updateUserCursor, log. simpl.
  by destruct (_ !! _).
Qed.

Lemma step_history (s1 s2 : t) (e : Event) :
  log s1 = log s2 → client s1 = client s2 →
  log (step s1 e) = log (step s2 e) ∧ client (step s1 e) = client (step s2 e).
Proof.
  unfold log. intros Hlog Hclient.
  destruct e; simpl.
  - by rewrite Hlog, Hclient.
  - destruct from; simpl; by rewrite Hlog, Hclient.
  - unfold undo, DrawingState.undoLastOperation. rewrite Hlog, Hclient.
    destruct (_ =? 0); simpl; [done|].
    by destruct (last _).
  - by rewrite Hlog, Hclient.
  - by rewrite Hclient.
  - done.
  - done.
  - unfold DrawingState.updateUserCursor.
    by destruct (_ !! _), (_ !! _).
Qed.

Lemma fold_presence_filter (evs : list Event) (s1 s2 : t) :
  log s1 = log s2 → client s1 = client s2 →
  log (fold_left step evs s1) = log (fold_left step (filter (λ e, is_history e = true) evs) s2) ∧
  client (fold_left step evs s1)
    = client (fold_left step (filter (λ e, is_history e = true) evs) s2).
Proof.
  revert s1 s2. induction evs as [|e evs IH]; intros s1 s2 Hlog Hclient; [done|].
  rewrite filter_cons. simpl. destruct (decide (is_history e = true)) as [Hh|Hp].
  - simpl. destruct (step_history s1 s2 e Hlog Hclient). by apply IH.
  - apply not_true_is_false in Hp.
    destruct (step_presence s1 e Hp) as [Hl Hc]. apply IH; congruence.
Qed.

Lemma fold_apply_log (from : Origin) (ops : list DrawingOperation) (s : t) :
  log (fold_left step (EApply from <$> ops) s) = log s ++ ops.
Proof.
  revert s. induction ops as [|op ops IH]; intros s; simpl.
  - by rewrite app_nil_r.
  - rewrite IH. destruct from; unfold log; simpl; by rewrite <- app_assoc.
Qed.

Lemma step_colorIdx (s : t) (e : Event) :
  DrawingState.colorIdx (server (step s e))
  = DrawingState.colorIdx (server s) + (if is_join e then 1 else 0).
Proof.
  destruct e; simpl; try lia.
  - destruct from; simpl; lia.
  - unfold undo, DrawingState.undoLastOperation.
    destruct (_ =? 0); simpl; [lia|]. destruct (last _); simpl; lia.
  - unfold DrawingState.updateUserCursor. destruct (_ !! _); simpl; lia.
Qed.

Lemma step_users_wf (s : t) (e : Event) :
  users_wf (users s) → users_wf (users (step s e)).
Proof.
  unfold users. intros Hwf.
  destruct e; simpl; try done.
  - by destruct from.
  - unfold undo, DrawingState.undoLastOperation.
    destruct (_ =? 0); simpl; [done|]. by destruct (last _).
  - intros k u. change (length DrawingState.userColors) with 8.
    destruct (decide (k = userId)) as [->|Hne].
    + rewrite lookup_insert_eq. intros [= <-]. simpl.
      split; [done | apply palette_colour_elem].
    + rewrite lookup_insert_ne by done. apply Hwf.
  - intros k u [Hne Hu]%lookup_delete_Some. by apply Hwf.
  - unfold DrawingState.updateUserCursor.
    destruct (DrawingState.users (server s) !! userId) as [old|] eqn:Hold; [|done].
    simpl. intros k u. destruct (decide (k = userId)) as [->|Hne].
    + rewrite lookup_insert_eq. intros [= <-]. simpl. by apply Hwf.
    + rewrite lookup_insert_ne by done. apply Hwf.
Qed.

End SessionRuns.

(** X10. A fresh operation that is undone straight away comes back from
    the undo and the log is as before, but the redo buffer is not: whatever
    could be redone before is gone and the buffer holds just that
    operation.  This is so for a client that received the operation's
    broadcast, and for the client that drew it when nothing reached it
    between its local commit and the undo's broadcast. *)
Theorem apply_undo (op : DrawingOperation) (s : Session.t) :
  ((Session.undo (Session.apply Session.Peer op s)).1 = Some op ∧
   Session.log (Session.undo (Session.apply Session.Peer op s)).2 = Session.log s ∧
   Session.redoBuffer (Session.undo (Session.apply Session.Peer op s)).2 = [op] ∧
   Session.users (Session.undo (Session.apply Session.Peer op s)).2 = Session.users s) ∧
  ((Session.undo (Session.apply Session.Self op (Session.commit op s))).1 = Some op ∧
   Session.log (Session.undo (Session.apply Session.Self op (Session.commit op s))).2
     = Session.log s ∧
   Session.redoBuffer (Session.undo (Session.apply Session.Self op (Session.commit op s))).2
     = [op] ∧
   Session.users (Session.undo (Session.apply Session.Self op (Session.commit op s))).2
     = Session.users s).
Proof.
  split.
  - by rewrite (undo_snoc (Session.apply Session.Peer op s) (Session.log s) op).
  - by rewrite (undo_snoc (Session.apply Session.Self op (Session.commit op s))
                  (Session.log s) op).
Qed.

(** X11. A run of draw operations leaves them in the log in the order in
    which the server processed them, after what was there before. *)
Theorem applies_keep_order (from : Session.Origin) (ops : list DrawingOperation)
    (evs : list Session.Event) :
  Session.log (Session.run (evs ++ (Session.EApply from <$> ops)))
  = Session.log (Session.run evs) ++ ops.
Proof.
  unfold Session.run. rewrite fold_left_app. apply fold_apply_log.
Qed.

(** X12. Joins, leaves and cursor moves never touch the history: the log
    and the client's stacks after a run are those of the run with all
    presence events removed. *)
Theorem presence_never_touches_history (evs : list Session.Event) :
  Session.log (Session.run evs)
    = Session.log (Session.run (filter (λ e, is_history e = true) evs)) ∧
  Session.client (Session.run evs)
    = Session.client (Session.run (filter (λ e, is_history e = true) evs)).
Proof. by apply fold_presence_filter. Qed.

(** X13. The palette index of a room counts the joins it has seen; leaves
    never give a colour back.  Hence the user who joins after a run gets
    the palette colour at position (number of earlier joins) mod 8. *)
Theorem palette_counts_joins (evs : list Session.Event) (userId userName : string) :
  DrawingState.colorIdx (Session.server (Session.run evs))
    = length (filter (λ e, is_join e = true) evs) ∧
  user_color (Session.join userId userName (Session.run evs)).1
    = nth (length (filter (λ e, is_join e = true) evs) mod 8)
          DrawingState.userColors ""%string.
Proof.
  assert (Hidx : DrawingState.colorIdx (Session.server (Session.run evs))
                 = length (filter (λ e, is_join e = true) evs)).
  { induction evs as [|e evs IH] using rev_ind; [done|].
    rewrite run_snoc, step_colorIdx, IH, filter_app, length_app, filter_cons.
    destruct (decide (is_join e = true)) as [Hj|Hj].
    - rewrite Hj. simpl. lia.
    - apply not_true_is_false in Hj. rewrite Hj. simpl. lia. }
  split; [done|]. unfold Session.join, DrawingState.addUser. simpl.
  change (length DrawingState.userColors) with 8. by rewrite Hidx.
Qed.

(** X14. In every reachable session each user record is stored under its
    own id and carries one of the eight palette colours. *)
Theorem users_keyed_by_id (evs : list Session.Event) (k : string) (u : User) :
  Session.users (Session.run evs) !! k = Some u →
  user_id u = k ∧ user_color u ∈ DrawingState.userColors.
Proof.
  revert k u. change (users_wf (Session.users (Session.run evs))).
  induction evs as [|e evs IH] using rev_ind.
  - intros k u. change (Session.users (Session.run [])) with (∅ : gmap string User).
    by rewrite lookup_empty.
  - rewrite run_snoc. by apply step_users_wf.
Qed.

Lemma users_keyed_by_id_witness :
  user_id (mkUser "sockA" "Ann" "#FF6B6B" None None) = "sockA"%string ∧
  user_color (mkUser "sockA" "Ann" "#FF6B6B" None None) ∈ DrawingState.userColors.
Proof.
  apply (users_keyed_by_id [Session.EJoin "sockA" "Ann"; Session.EApply Session.Peer opA]).
  vm_compute. reflexivity.
Defined.

(** ** The client's copy of the history, and multi-level undo *)

Section Replica.
Import Session.

Lemma filter_other_ids (op : DrawingOperation) (l : list DrawingOperation) :
  op_id op ∉ op_id <$> l → filter (λ o, op_id o ≠ op_id op) l = l.
Proof.
  induction l as [|o l IH]; [done|].
  rewrite fmap_cons, not_elem_of_cons. intros [Hne Hnotin].
  rewrite filter_cons_True by congruence. f_equal. by apply IH.
Qed.

Lemma ids_distinct_snoc (s : t) (ops : list DrawingOperation) (op : DrawingOperation) :
  ids_distinct s → log s = ops ++ [op] →
  (op_id op ∉ op_id <$> ops) ∧ (op_id op ∉ op_id <$> redoBuffer s).
Proof.
  unfold ids_distinct. intros Hinv Hlog. rewrite Hlog in Hinv.
  rewrite !fmap_app, !NoDup_app in Hinv.
  destruct Hinv as ((_ & Hdisj1 & _) & Hdisj2 & _). split.
  - intros Hin. apply (Hdisj1 _ Hin). simpl. left.
  - apply Hdisj2. rewrite elem_of_app. right. simpl. left.
Qed.

Lemma undo_replica (s : t) :
  NoDup (op_id <$> log s) →
  CollaborativeCanvas.canvasOperations (client s) = log s →
  CollaborativeCanvas.canvasOperations (client (undo s).2) = log (undo s).2.
Proof.
  intros Hnd Hsame.
  destruct (decide (log s = [])) as [Hnil|Hne].
  - by rewrite undo_empty.
  - destruct (exists_last Hne) as (ops & op & Hlog).
    rewrite (undo_snoc s ops op Hlog). unfold log. simpl.
    rewrite Hsame, Hlog, filter_id_snoc.
    apply filter_other_ids.
    rewrite Hlog, fmap_app, NoDup_app in Hnd. destruct Hnd as (_ & Hdisj & _).
    intros Hin. apply (Hdisj _ Hin). simpl. left.
Qed.

(** An event of somebody else, heard by a client whose list agrees with a
    log without repeated ids. *)
Lemma heard_replica (s : t) (e : Event) :
  heard_event e = true →
  NoDup (op_id <$> log s) →
  CollaborativeCanvas.canvasOperations (client s) = log s →
  CollaborativeCanvas.canvasOperations (client (step s e)) = log (step s e).
Proof.
  intros Hheard Hnd Hsame. destruct e; simpl.
  - discriminate Hheard.
  - destruct from; [discriminate Hheard|]. unfold log in *. simpl. by rewrite Hsame.
  - by apply undo_replica.
  - unfold log in *. simpl. by rewrite Hsame.
  - done.
  - done.
  - done.
  - unfold log in *. simpl. rewrite Hsame.
    unfold DrawingState.updateUserCursor. by destruct (_ !! _).
Qed.

Lemma admissible_from_app (evs1 evs2 : list Event) (s : t) :
  admissible_from s (evs1 ++ evs2) ↔
  admissible_from s evs1 ∧ admissible_from (fold_left step evs1 s) evs2.
Proof.
  revert s. induction evs1 as [|e evs1 IH]; intros s; simpl; [tauto|].
  rewrite IH. tauto.
Qed.

Lemma turn_replica (t : Turn) (s : Session.t) :
  turn_ok t → admissible_from s (turn_events t) →
  NoDup (op_id <$> log s) →
  CollaborativeCanvas.canvasOperations (client s) = log s →
  NoDup (op_id <$> log (fold_left step (turn_events t) s)) ∧
  CollaborativeCanvas.canvasOperations (client (fold_left step (turn_events t) s))
  = log (fold_left step (turn_events t) s).
Proof.
  intros Hok Hadm Hnd Hsame. split; [by apply run_log_NoDup|].
  destruct t as [e|op]; simpl.
  - by apply heard_replica.
  - unfold log in *. simpl. by rewrite Hsame.
Qed.

Lemma turns_replica (turns : list Turn) (s : Session.t) :
  Forall turn_ok turns →
  admissible_from s (concat (turn_events <$> turns)) →
  NoDup (op_id <$> log s) →
  CollaborativeCanvas.canvasOperations (client s) = log s →
  CollaborativeCanvas.canvasOperations
    (client (fold_left step (concat (turn_events <$> turns)) s))
  = log (fold_left step (concat (turn_events <$> turns)) s).
Proof.
  revert s. induction turns as [|t turns IH]; intros s Hok Hadm Hnd Hsame; [done|].
  apply Forall_cons in Hok as [Hok Hoks].
  rewrite fmap_cons, concat_cons in *.
  apply admissible_from_app in Hadm as [Hadm Hadms].
  rewrite fold_left_app.
  destruct (turn_replica t s Hok Hadm Hnd Hsame) as [Hnd' Hsame'].
  by apply IH.
Qed.

Lemma redo_answered_snoc (s : t) (rs : list DrawingOperation) (op : DrawingOperation) :
  redoBuffer s = rs ++ [op] → redo_answered s = redo op s.
Proof.
  unfold redoBuffer, redo_answered, Requests.redo. intros ->.
  rewrite length_app, last_snoc. simpl.
  by replace (length rs + 1 =? 0) with false by (symmetry; apply Nat.eqb_neq; lia).
Qed.

Lemma undo_redo_levels_aux (k : nat) (s : t) :
  ids_distinct s → k ≤ length (log s) →
  let s' := Nat.iter k redo_answered (Nat.iter k (λ s, (undo s).2) s) in
  log s' = log s ∧ redoBuffer s' = redoBuffer s ∧
  (CollaborativeCanvas.canvasOperations (client s) = log s →
   CollaborativeCanvas.canvasOperations (client s') = log s).
Proof.
  revert s. induction k as [|k IH]; intros s Hinv Hk; [done|].
  rewrite (Nat.iter_succ k redo_answered), (Nat.iter_succ_r k (λ s0, (undo s0).2)).
  destruct (decide (log s = [])) as [Hnil|Hne]; [rewrite Hnil in Hk; simpl in Hk; lia|].
  destruct (exists_last Hne) as (ops & op & Hlog).
  destruct (ids_distinct_snoc s ops op Hinv Hlog) as [_ Hfresh].
  pose proof (undo_ids_distinct s Hinv) as Hinv'.
  pose proof (undo_replica s (ids_distinct_log s Hinv)) as Hrep.
  rewrite (undo_snoc s ops op Hlog) in *.
  set (s1 := mk _ _) in *.
  assert (Hk' : k ≤ length (log s1)).
  { rewrite Hlog, length_app in Hk. simpl in Hk. unfold s1, log. simpl. lia. }
  destruct (IH s1 Hinv' Hk') as (Hlog2 & Hredo2 & Hcanvas2).
  set (s2 := Nat.iter k redo_answered _) in *.
  assert (Hpress : redo_answered s2 = redo op s2).
  { apply (redo_answered_snoc s2 (redoBuffer s)). by rewrite Hredo2. }
  rewrite Hpress. unfold redo, log, redoBuffer in *. simpl in *.
  rewrite Hlog2, Hredo2, filter_id_snoc, Hlog.
  split_and!; [done | by apply filter_other_ids |].
  intros Hsame. rewrite Hcanvas2; [done|]. apply Hrep. by rewrite Hsame.
Qed.

End Replica.

(** X15. Take a run in which every operation the server pushes on the log
    has an id not yet in the log, and in which each stroke the client draws
    itself is appended by the server before any other broadcast reaches the
    client.  Then the operation list the client keeps equals the server's
    log, entry for entry. *)
Theorem replica_equals_log (turns : list Turn) :
  Forall turn_ok turns →
  Session.admissible_from Session.init (concat (turn_events <$> turns)) →
  CollaborativeCanvas.canvasOperations
    (Session.client (Session.run (concat (turn_events <$> turns))))
  = Session.log (Session.run (concat (turn_events <$> turns))).
Proof.
  intros Hok Hadm. apply turns_replica; [done | done | constructor | done].
Qed.

Lemma replica_equals_log_witness :
  CollaborativeCanvas.canvasOperations
    (Session.client (Session.run (concat (turn_events <$> turns_ok))))
  = Session.log (Session.run (concat (turn_events <$> turns_ok))).
Proof.
  apply (replica_equals_log turns_ok).
  - unfold turns_ok. repeat constructor.
  - change (concat (turn_events <$> turns_ok)) with trace_ok.
    unfold trace_ok. cbn [Session.admissible_from Session.admissible].
    split_and!; try exact I.
    + vm_compute. by intros ?%elem_of_nil.
    + apply (bool_decide_unpack _). by vm_compute.
    + vm_compute. by intros ?%elem_of_nil.
    + apply (bool_decide_unpack _). by vm_compute.
Defined.

(** When another client's stroke overtakes the client's own on the way to
    the server, the two lists hold the same operations in different
    orders. *)
Example replica_order_differs_when_overtaken :
  let s := Session.run [Session.ECommit opB; Session.EApply Session.Peer opA;
                        Session.EApply Session.Self opB] in
  CollaborativeCanvas.canvasOperations (Session.client s) = [opB; opA] ∧
  Session.log s = [opA; opB].
Proof. by vm_compute. Qed.

(** X16. Multi-level undo and redo, one answer at a time: in a session
    whose log and redo buffer carry pairwise distinct ids, [k] undos
    followed by [k] presses of the redo button, each press made after the
    broadcast of the previous redo has come back to the client and with
    nothing else handled in between, restore the log and the redo buffer
    exactly, and the client's copy of the history too if it agreed with the
    log before. *)
Theorem undo_redo_levels (k : nat) (s : Session.t) :
  Session.ids_distinct s → k ≤ length (Session.log s) →
  Session.log (Nat.iter k redo_answered (Nat.iter k (λ s, (Session.undo s).2) s))
    = Session.log s ∧
  Session.redoBuffer (Nat.iter k redo_answered (Nat.iter k (λ s, (Session.undo s).2) s))
    = Session.redoBuffer s ∧
  (CollaborativeCanvas.canvasOperations (Session.client s) = Session.log s →
   CollaborativeCanvas.canvasOperations
     (Session.client (Nat.iter k redo_answered (Nat.iter k (λ s, (Session.undo s).2) s)))
   = Session.log s).
Proof. apply undo_redo_levels_aux. Qed.

Lemma undo_redo_levels_witness :
  Session.log (Nat.iter 2 redo_answered (Nat.iter 2 (λ s, (Session.undo s).2) session_AB))
    = Session.log session_AB ∧
  Session.redoBuffer
    (Nat.iter 2 redo_answered (Nat.iter 2 (λ s, (Session.undo s).2) session_AB))
    = Session.redoBuffer session_AB.
Proof.
  pose proof (undo_redo_levels 2 session_AB) as H.
  destruct H as (Hlog & Hredo & _).
  - apply (bool_decide_unpack _). by vm_compute.
  - vm_compute. lia.
  - split; [exact Hlog | exact Hredo].
Defined.

(** A press made before the previous answer has arrived reads the same top
    of the stack: the request does not change the client, so the operation
    is sent again, and the server pushes it a second time. *)
Example redo_pressed_twice_unanswered :
  Requests.redo true (Session.client session_undone) = Some (Requests.SendRedo opA) ∧
  Session.log (Session.redo opA (Session.redo opA session_undone)) = [opA; opA].
Proof. by vm_compute. Qed.

(** * Further properties of the room registry *)

Section RegistryMore.
Import RoomManager.

Lemma update_lookup (roomId : string) (m : DrawingState.t → DrawingState.t) (rooms : t) :
  update roomId m rooms !! roomId
  = Some (m (default DrawingState.init (rooms !! roomId))).
Proof.
  unfold update, getRoom. destruct (rooms !! roomId); simpl; apply lookup_insert_eq.
Qed.

Lemma update_other (roomId other : string) (m : DrawingState.t → DrawingState.t)
    (rooms : t) :
  other ≠ roomId → update roomId m rooms !! other = rooms !! other.
Proof.
  intros Hne. unfold update, getRoom.
  destruct (rooms !! roomId); simpl; by rewrite !lookup_insert_ne.
Qed.

Lemma on_disconnect_unfold (roomId userId : string) (rooms : t) :
  on_disconnect roomId userId rooms =
  let room := DrawingState.removeUser userId
                (default DrawingState.init (rooms !! roomId)) in
  if length (DrawingState.getUsers room) =? 0
  then (true, delete roomId rooms)
  else (false, <[roomId := room]> rooms).
Proof.
  unfold on_disconnect, deleteRoomIfEmpty. rewrite update_lookup. simpl.
  destruct (_ =? 0).
  - f_equal. unfold update, getRoom.
    destruct (rooms !! roomId); simpl; by rewrite ?insert_insert_eq, delete_insert_eq.
  - f_equal. unfold update, getRoom.
    destruct (rooms !! roomId); simpl; by rewrite ?insert_insert_eq.
Qed.

Lemma deleteRoomIfEmpty_other (roomId other : string) (rooms : t) :
  other ≠ roomId → (deleteRoomIfEmpty roomId rooms).2 !! other = rooms !! other.
Proof.
  intros Hne. unfold deleteRoomIfEmpty.
  destruct (rooms !! roomId); [destruct (_ =? 0)|]; simpl; [|done..].
  by apply lookup_delete_ne.
Qed.

Lemma on_disconnect_other (roomId other userId : string) (rooms : t) :
  other ≠ roomId → (on_disconnect roomId userId rooms).2 !! other = rooms !! other.
Proof.
  intros Hne. unfold on_disconnect.
  rewrite deleteRoomIfEmpty_other by done. by apply update_other.
Qed.

End RegistryMore.

(** X17. [getRoom] is get-or-create: it returns the registered state and
    leaves the table alone when the room exists, registers one fresh empty
    state when it does not, never touches another room, and asking again
    returns the same state without creating a second one. *)
Theorem getRoom_get_or_create (roomId : string) (rooms : RoomManager.t) :
  (∀ room, rooms !! roomId = Some room →
     RoomManager.getRoom roomId rooms = (room, rooms)) ∧
  (rooms !! roomId = None →
     (RoomManager.getRoom roomId rooms).1 = DrawingState.init ∧
     RoomManager.getRoomCount (RoomManager.getRoom roomId rooms).2
       = S (RoomManager.getRoomCount rooms)) ∧
  (RoomManager.getRoom roomId rooms).2 !! roomId
    = Some (RoomManager.getRoom roomId rooms).1 ∧
  RoomManager.hasRoom roomId (RoomManager.getRoom roomId rooms).2 = true ∧
  (∀ other, other ≠ roomId →
     (RoomManager.getRoom roomId rooms).2 !! other = rooms !! other) ∧
  RoomManager.getRoom roomId (RoomManager.getRoom roomId rooms).2
    = RoomManager.getRoom roomId rooms.
Proof.
  unfold RoomManager.getRoom, RoomManager.hasRoom, RoomManager.getRoomCount.
  destruct (rooms !! roomId) as [room|] eqn:Hroom; simpl.
  - rewrite Hroom.
    split_and!;
      first [ done | by intros room' [= <-]
            | by (apply bool_decide_eq_true; eexists) ].
  - rewrite lookup_insert_eq.
    split_and!;
      first [ done
            | by (intros _; split; [|apply map_size_insert_None])
            | by (apply bool_decide_eq_true; eexists)
            | by (intros other Hne; apply lookup_insert_ne) ].
Qed.

Lemma getRoom_get_or_create_witness :
  RoomManager.getRoom "r1" {[ "r1"%string := state_Ann ]}
    = (state_Ann, {[ "r1"%string := state_Ann ]}) ∧
  (RoomManager.getRoom "r1" RoomManager.init).1 = DrawingState.init ∧
  RoomManager.getRoomCount (RoomManager.getRoom "r1" RoomManager.init).2
    = S (RoomManager.getRoomCount RoomManager.init).
Proof.
  pose proof (getRoom_get_or_create "r1" {[ "r1"%string := state_Ann ]}) as (Hget & _).
  pose proof (getRoom_get_or_create "r1" RoomManager.init) as (_ & Hnew & _).
  split.
  - apply Hget. reflexivity.
  - apply Hnew. reflexivity.
Defined.

(** X18. The list of room ids has no repetition, its length is the room
    count, and it holds exactly the ids for which [hasRoom] answers true. *)
Theorem room_listing_consistent (rooms : RoomManager.t) :
  NoDup (RoomManager.getAllRoomIds rooms) ∧
  length (RoomManager.getAllRoomIds rooms) = RoomManager.getRoomCount rooms ∧
  (∀ roomId, roomId ∈ RoomManager.getAllRoomIds rooms ↔
             RoomManager.hasRoom roomId rooms = true).
Proof.
  unfold RoomManager.getAllRoomIds, RoomManager.getRoomCount, RoomManager.hasRoom.
  split_and!.
  - apply NoDup_fst_map_to_list.
  - by rewrite length_fmap, length_map_to_list.
  - intros roomId. rewrite bool_decide_eq_true. apply getAllRoomIds_elem.
Qed.

(** X19. [deleteRoomIfEmpty] never touches another room, and the room count
    drops by one exactly when it answers true, after which the room is no
    longer registered. *)
Theorem deleteRoomIfEmpty_frame (roomId : string) (rooms : RoomManager.t) :
  (∀ other, other ≠ roomId →
     (RoomManager.deleteRoomIfEmpty roomId rooms).2 !! other = rooms !! other) ∧
  RoomManager.getRoomCount (RoomManager.deleteRoomIfEmpty roomId rooms).2
    + (if (RoomManager.deleteRoomIfEmpty roomId rooms).1 then 1 else 0)
    = RoomManager.getRoomCount rooms ∧
  ((RoomManager.deleteRoomIfEmpty roomId rooms).1 = true →
     RoomManager.hasRoom roomId (RoomManager.deleteRoomIfEmpty roomId rooms).2 = false).
Proof.
  unfold RoomManager.deleteRoomIfEmpty, RoomManager.getRoomCount, RoomManager.hasRoom.
  destruct (rooms !! roomId) as [room|] eqn:Hroom; [destruct (_ =? 0)|]; simpl.
  - split_and!.
    + intros other Hne. by apply lookup_delete_ne.
    + rewrite map_size_delete, Hroom.
      assert (size rooms ≠ 0); [|lia].
      intros Hz%map_size_empty_iff. by rewrite Hz, lookup_empty in Hroom.
    + intros _. apply bool_decide_eq_false. rewrite lookup_delete_eq. by intros [? [=]].
  - split_and!; [done | lia | done].
  - split_and!; [done | lia | done].
Qed.

Lemma deleteRoomIfEmpty_frame_witness :
  RoomManager.hasRoom "r1"
    (RoomManager.deleteRoomIfEmpty "r1" {[ "r1"%string := DrawingState.init ]}).2 = false ∧
  (RoomManager.deleteRoomIfEmpty "r1" {[ "r2"%string := state_Ann ]}).2 !! "r2"%string
    = ({[ "r2"%string := state_Ann ]} : gmap string DrawingState.t) !! "r2"%string.
Proof.
  pose proof (deleteRoomIfEmpty_frame "r1" {[ "r1"%string := DrawingState.init ]})
    as (_ & _ & Hgone).
  pose proof (deleteRoomIfEmpty_frame "r1" {[ "r2"%string := state_Ann ]})
    as (Hother & _).
  split.
  - apply Hgone. reflexivity.
  - apply Hother. discriminate.
Defined.

(** X20. Rooms are isolated: a join or a disconnect addressed to one room
    leaves every other room's state exactly as it was. *)
Theorem rooms_isolated (roomId other userName socketId : string)
    (rooms : RoomManager.t) :
  other ≠ roomId →
  (RoomManager.on_join_room roomId userName socketId rooms).2 !! other
    = rooms !! other ∧
  (RoomManager.on_disconnect roomId socketId rooms).2 !! other = rooms !! other.
Proof.
  intros Hne. split.
  - unfold RoomManager.on_join_room, RoomManager.getRoom.
    destruct (rooms !! roomId); simpl; by rewrite !lookup_insert_ne.
  - rewrite on_disconnect_unfold. simpl. destruct (_ =? 0); simpl.
    + by apply lookup_delete_ne.
    + by apply lookup_insert_ne.
Qed.

Lemma rooms_isolated_witness :
  (RoomManager.on_join_room "r1" "Ann" "sockA"
     (RoomManager.on_join_room "r2" "Bob" "sockB" RoomManager.init).2).2 !! "r2"%string
    = (RoomManager.on_join_room "r2" "Bob" "sockB" RoomManager.init).2 !! "r2"%string ∧
  (RoomManager.on_disconnect "r1" "sockA"
     (RoomManager.on_join_room "r2" "Bob" "sockB" RoomManager.init).2).2 !! "r2"%string
    = (RoomManager.on_join_room "r2" "Bob" "sockB" RoomManager.init).2 !! "r2"%string.
Proof.
  apply (rooms_isolated "r1" "r2" "Ann" "sockA"
           (RoomManager.on_join_room "r2" "Bob" "sockB" RoomManager.init).2).
  discriminate.
Defined.

(** The three cases of the body of the disconnect handler. *)
Lemma on_disconnect_cases (roomId userId : string) (rooms : RoomManager.t) :
  (∀ room, rooms !! roomId = Some room →
     delete userId (DrawingState.users room) ≠ ∅ →
     RoomManager.on_disconnect roomId userId rooms
     = (false, <[roomId := DrawingState.removeUser userId room]> rooms)) ∧
  (∀ room, rooms !! roomId = Some room →
     delete userId (DrawingState.users room) = ∅ →
     RoomManager.on_disconnect roomId userId rooms = (true, delete roomId rooms)) ∧
  (rooms !! roomId = None →
     RoomManager.on_disconnect roomId userId rooms = (true, rooms)).
Proof.
  rewrite on_disconnect_unfold. split_and!.
  - intros room -> Hne. simpl.
    destruct (_ =? 0) eqn:Hlen; [|done].
    by apply getUsers_length_0 in Hlen.
  - intros room -> Hempty. simpl.
    by rewrite (proj2 (getUsers_length_0 (DrawingState.removeUser userId room))).
  - intros Hnone. rewrite Hnone. simpl.
    rewrite (proj2 (getUsers_length_0
                      (DrawingState.removeUser userId DrawingState.init))).
    + by rewrite delete_id.
    + simpl. apply delete_empty.
Qed.

(** X22. A room's history does not outlive its last user: once a disconnect
    has released the room, the next join finds a fresh state, with an
    empty log, the joiner as only user and the first palette colour. *)
Theorem release_forgets_history (roomId userId userName socketId : string)
    (rooms : RoomManager.t) :
  (RoomManager.on_disconnect roomId userId rooms).1 = true →
  let rooms' := (RoomManager.on_disconnect roomId userId rooms).2 in
  let user := (RoomManager.on_join_room roomId userName socketId rooms').1 in
  rooms' !! roomId = None ∧
  user = mkUser socketId userName "#FF6B6B" None None ∧
  (RoomManager.on_join_room roomId userName socketId rooms').2 !! roomId
    = Some (DrawingState.mk [] {[socketId := user]} 1).
Proof.
  rewrite on_disconnect_unfold. simpl.
  destruct (_ =? 0); simpl; [|discriminate]. intros _.
  assert (Hgone : delete roomId rooms !! roomId = None) by apply lookup_delete_eq.
  split; [done|].
  unfold RoomManager.on_join_room, RoomManager.getRoom. rewrite Hgone. simpl.
  split; [done|]. by rewrite lookup_insert_eq.
Qed.

Lemma release_forgets_history_witness :
  (RoomManager.on_join_room "r1" "Bob" "sockB"
     (RoomManager.on_disconnect "r1" "sockA"
        (RoomManager.on_join_room "r1" "Ann" "sockA" RoomManager.init).2).2).1
  = mkUser "sockB" "Bob" "#FF6B6B" None None.
Proof.
  pose proof (release_forgets_history "r1" "sockA" "Bob" "sockB"
                (RoomManager.on_join_room "r1" "Ann" "sockA" RoomManager.init).2
                eq_refl) as (_ & Huser & _).
  exact Huser.
Defined.

(** * Properties of the socket handlers *)

Section HandlerFacts.
Import Server.

Lemma truthy_Some (v : option string) (r : string) :
  truthy v = Some r ↔ v = Some r ∧ r ≠ ""%string.
Proof.
  unfold truthy. destruct v as [s|].
  - destruct (decide (s = ""%string)) as [->|Hne].
    + split; [discriminate|]. by intros [[= <-] Hne].
    + split; [by intros [= <-] | by intros [[= <-] _]].
  - split; [discriminate | by intros [[=] _]].
Qed.

Lemma getRoom_fst (roomId : string) (rooms : gmap string DrawingState.t) :
  (RoomManager.getRoom roomId rooms).1 = default DrawingState.init (rooms !! roomId).
Proof. unfold RoomManager.getRoom. by destruct (rooms !! roomId). Qed.

(** Every handler that changes a room does so through [RoomManager.update]. *)
Lemma getRoom_insert (roomId : string) (room : DrawingState.t)
    (rooms : gmap string DrawingState.t) :
  <[roomId := room]> (RoomManager.getRoom roomId rooms).2 = <[roomId := room]> rooms.
Proof.
  unfold RoomManager.getRoom. destruct (rooms !! roomId); simpl; [done|].
  apply insert_insert_eq.
Qed.

Lemma disconnect_registry (c : Conn) (rooms : gmap string DrawingState.t)
    (r uid : string) :
  truthy (currentRoom c) = Some r → truthy (currentUserId c) = Some uid →
  Server.rooms (disconnect c rooms) = (RoomManager.on_disconnect r uid rooms).2.
Proof.
  intros Hr Hu. unfold disconnect, RoomManager.on_disconnect, RoomManager.update.
  rewrite Hr, Hu. by destruct (RoomManager.getRoom r rooms).
Qed.

Lemma heard_by_peer_one (r : string) (a : Audience) (m : Message) :
  heard_by_peer r [(a, m)] =
  match a with
  | ToSender => []
  | ToOthers r' | ToRoom r' => if decide (r' = r) then [m] else []
  end.
Proof. unfold heard_by_peer. simpl. destruct a; [done | |]; by destruct (decide _). Qed.

Lemma join_room_unfold (r userName : string) (c : Conn)
    (rooms : gmap string DrawingState.t) :
  join_room r userName c rooms =
  let joined := DrawingState.addUser (socket_id c) userName (before r rooms) in
  mkOutcome (mkConn (socket_id c) (Some r) (Some (socket_id c)))
    (<[r := joined.2]> rooms)
    [(ToSender, InitState (socket_id c) joined.1
                  (DrawingState.getAllOperations joined.2)
                  (DrawingState.getUsers joined.2));
     (ToOthers r, UserJoined joined.1 (DrawingState.getUsers joined.2))].
Proof.
  unfold join_room, before, RoomManager.getRoom.
  destruct (rooms !! r); simpl; by rewrite ?insert_insert_eq.
Qed.

Lemma draw_operation_unfold (op : DrawingOperation) (r : string) (c : Conn)
    (rooms : gmap string DrawingState.t) :
  truthy (currentRoom c) = Some r →
  draw_operation op c rooms =
  mkOutcome c (<[r := DrawingState.addOperation op (before r rooms)]> rooms)
    [(ToOthers r, DrawOperationMsg op)].
Proof.
  intros Hr. unfold draw_operation, before, RoomManager.getRoom. rewrite Hr.
  destruct (rooms !! r); simpl; by rewrite ?insert_insert_eq.
Qed.

Lemma cursor_move_unfold (x y : float) (r uid : string) (c : Conn)
    (rooms : gmap string DrawingState.t) :
  truthy (currentRoom c) = Some r → truthy (currentUserId c) = Some uid →
  cursor_move x y c rooms =
  mkOutcome c (<[r := DrawingState.updateUserCursor uid x y (before r rooms)]> rooms)
    [(ToOthers r, CursorMoveMsg uid x y)].
Proof.
  intros Hr Hu. unfold cursor_move, before, RoomManager.getRoom. rewrite Hr, Hu.
  destruct (rooms !! r); simpl; by rewrite ?insert_insert_eq.
Qed.

Lemma undo_unfold (r : string) (c : Conn) (rooms : gmap string DrawingState.t) :
  truthy (currentRoom c) = Some r →
  undo c rooms =
  let undone := DrawingState.undoLastOperation (before r rooms) in
  mkOutcome c (<[r := undone.2]> rooms)
    match undone.1 with
    | Some op => [(ToRoom r, UndoMsg (op_id op) op)]
    | None => []
    end.
Proof.
  intros Hr. unfold undo, before, RoomManager.getRoom. rewrite Hr.
  destruct (rooms !! r) as [room|]; simpl.
  - by destruct (DrawingState.undoLastOperation room) as [[op|] room'].
  - by rewrite insert_insert_eq.
Qed.

Lemma redo_unfold (op : DrawingOperation) (r : string) (c : Conn)
    (rooms : gmap string DrawingState.t) :
  truthy (currentRoom c) = Some r →
  redo op c rooms =
  mkOutcome c (<[r := DrawingState.redoOperation op (before r rooms)]> rooms)
    [(ToRoom r, RedoMsg op)].
Proof.
  intros Hr. unfold redo, before, RoomManager.getRoom. rewrite Hr.
  destruct (rooms !! r); simpl; by rewrite ?insert_insert_eq.
Qed.

Lemma clear_canvas_unfold (r : string) (c : Conn) (rooms : gmap string DrawingState.t) :
  truthy (currentRoom c) = Some r →
  clear_canvas c rooms =
  mkOutcome c (<[r := DrawingState.clearAll (before r rooms)]> rooms)
    [(ToRoom r, ClearCanvasMsg)].
Proof.
  intros Hr. unfold clear_canvas, before, RoomManager.getRoom. rewrite Hr.
  destruct (rooms !! r); simpl; by rewrite ?insert_insert_eq.
Qed.

Lemma disconnect_emits (r uid : string) (c : Conn) (rooms : gmap string DrawingState.t) :
  truthy (currentRoom c) = Some r → truthy (currentUserId c) = Some uid →
  emits (disconnect c rooms) =
  [(ToOthers r,
    UserLeft uid (DrawingState.getUsers (DrawingState.removeUser uid (before r rooms))))].
Proof.
  intros Hr Hu. unfold disconnect, before, RoomManager.getRoom. rewrite Hr, Hu.
  by destruct (rooms !! r).
Qed.

End HandlerFacts.

(** X21. The disconnect handler does nothing for a connection whose room
    or user id is null or empty.  Otherwise it tells the other members who
    left, and the room is released exactly when the leaving user was the
    last one registered: if somebody else remains, the room stays with the
    leaver removed; if nobody remains, the room, with its whole log, is
    dropped from the table; and a room that was not registered is created
    and dropped again, leaving the table as it was. *)
Theorem disconnect_releases_last (c : Server.Conn)
    (rooms : gmap string DrawingState.t) :
  (Server.truthy (Server.currentRoom c) = None ∨
   Server.truthy (Server.currentUserId c) = None →
     Server.disconnect c rooms = Server.mkOutcome c rooms []) ∧
  (∀ r uid,
     Server.truthy (Server.currentRoom c) = Some r →
     Server.truthy (Server.currentUserId c) = Some uid →
     Server.emits (Server.disconnect c rooms)
       = [(Server.ToOthers r,
           Server.UserLeft uid
             (DrawingState.getUsers
                (DrawingState.removeUser uid
                   (default DrawingState.init (rooms !! r)))))] ∧
     (∀ room, rooms !! r = Some room →
        delete uid (DrawingState.users room) ≠ ∅ →
        Server.rooms (Server.disconnect c rooms)
          = <[r := DrawingState.removeUser uid room]> rooms) ∧
     (∀ room, rooms !! r = Some room →
        delete uid (DrawingState.users room) = ∅ →
        Server.rooms (Server.disconnect c rooms) = delete r rooms) ∧
     (rooms !! r = None → Server.rooms (Server.disconnect c rooms) = rooms)).
Proof.
  split.
  - unfold Server.disconnect. intros [Hr | Hu].
    + by rewrite Hr.
    + rewrite Hu. by destruct (Server.truthy (Server.currentRoom c)).
  - intros r uid Hr Hu.
    destruct (on_disconnect_cases r uid rooms) as (Hstay & Hlast & Habsent).
    rewrite (disconnect_registry c rooms r uid Hr Hu).
    split_and!.
    + by apply disconnect_emits.
    + intros room Hroom Hne. by rewrite (Hstay room Hroom Hne).
    + intros room Hroom Hempty. by rewrite (Hlast room Hroom Hempty).
    + intros Hnone. by rewrite (Habsent Hnone).
Qed.

Lemma disconnect_releases_last_witness :
  Server.disconnect (Server.mkConn "sockA" (Some ""%string) (Some "sockA"%string))
    {[ ""%string := state_Ann ]}
  = Server.mkOutcome (Server.mkConn "sockA" (Some ""%string) (Some "sockA"%string))
      {[ ""%string := state_Ann ]} [] ∧
  Server.rooms (Server.disconnect connB race_joined)
  = <["r1"%string := DrawingState.removeUser "sockB"
                       (default DrawingState.init (race_joined !! "r1"%string))]>
      race_joined ∧
  Server.rooms (Server.disconnect connA {[ "r1"%string := state_Ann ]})
  = delete "r1"%string {[ "r1"%string := state_Ann ]} ∧
  Server.rooms (Server.disconnect connA RoomManager.init) = RoomManager.init.
Proof.
  pose proof (disconnect_releases_last
                (Server.mkConn "sockA" (Some ""%string) (Some "sockA"%string))
                {[ ""%string := state_Ann ]}) as (Hignored & _).
  pose proof (disconnect_releases_last connB race_joined) as (_ & HB).
  destruct (HB "r1"%string "sockB"%string eq_refl eq_refl) as (_ & Hstay & _).
  pose proof (disconnect_releases_last connA {[ "r1"%string := state_Ann ]}) as (_ & HA).
  destruct (HA "r1"%string "sockA"%string eq_refl eq_refl) as (_ & _ & Hlast & _).
  pose proof (disconnect_releases_last connA RoomManager.init) as (_ & H0).
  destruct (H0 "r1"%string "sockA"%string eq_refl eq_refl) as (_ & _ & _ & Habsent).
  split_and!.
  - apply Hignored. left. reflexivity.
  - apply (Hstay (default DrawingState.init (race_joined !! "r1"%string)));
      [by vm_compute|].
    intros Hempty. apply (f_equal size) in Hempty. vm_compute in Hempty.
    discriminate Hempty.
  - apply (Hlast state_Ann); [reflexivity|]. apply map_size_empty_iff. reflexivity.
  - apply Habsent. reflexivity.
Defined.

(** X23. Until a connection has joined a room (its room variable is null,
    or the empty string, which JavaScript also treats as false), every
    event other than a join is ignored: the registry is not touched, no
    room is created and nothing is emitted. *)
Theorem unjoined_events_ignored (ev : Server.Inbound) (c : Server.Conn)
    (rooms : gmap string DrawingState.t) :
  Server.truthy (Server.currentRoom c) = None →
  (∀ roomId userName, ev ≠ Server.JoinRoom roomId userName) →
  Server.handle ev c rooms = Server.mkOutcome c rooms [].
Proof.
  intros Hnone Hev.
  destruct ev; simpl;
    unfold Server.draw_operation, Server.cursor_move, Server.undo, Server.redo,
           Server.clear_canvas, Server.disconnect;
    rewrite ?Hnone; try done.
  by destruct (Hev roomId userName).
Qed.

Lemma unjoined_events_ignored_witness :
  Server.handle (Server.DrawOperation opA) (Server.connect "sockA") RoomManager.init
  = Server.mkOutcome (Server.connect "sockA") RoomManager.init [].
Proof.
  apply (unjoined_events_ignored (Server.DrawOperation opA) (Server.connect "sockA")).
  - reflexivity.
  - discriminate.
Defined.

(** X24. A join registers the user under the socket id, binds the
    connection to the room, sends the init-state snapshot to the joiner
    only and the user-joined notice to the others.  The snapshot carries
    the whole log the room had before the join and a users list that
    already contains the joiner. *)
Theorem join_room_snapshot (roomId userName : string) (c : Server.Conn)
    (rooms : gmap string DrawingState.t) :
  let out := Server.join_room roomId userName c rooms in
  let before := default DrawingState.init (rooms !! roomId) in
  ∃ user room,
    Server.conn out
      = Server.mkConn (Server.socket_id c) (Some roomId) (Some (Server.socket_id c)) ∧
    Server.rooms out !! roomId = Some room ∧
    DrawingState.users room !! Server.socket_id c = Some user ∧
    user_id user = Server.socket_id c ∧ user_name user = userName ∧
    user ∈ DrawingState.getUsers room ∧
    DrawingState.operations room = DrawingState.operations before ∧
    Server.emits out
      = [(Server.ToSender,
          Server.InitState (Server.socket_id c) user
            (DrawingState.operations before) (DrawingState.getUsers room));
         (Server.ToOthers roomId,
          Server.UserJoined user (DrawingState.getUsers room))].
Proof.
  intros out before. subst out before. unfold Server.join_room.
  rewrite (surjective_pairing (RoomManager.getRoom roomId rooms)), getRoom_fst.
  set (before := default DrawingState.init (rooms !! roomId)).
  exists (DrawingState.addUser (Server.socket_id c) userName before).1,
         (DrawingState.addUser (Server.socket_id c) userName before).2.
  rewrite (surjective_pairing (DrawingState.addUser _ _ before)).
  cbn [Server.conn Server.rooms Server.emits Server.socket_id].
  assert (Hreg : DrawingState.users
                   (DrawingState.addUser (Server.socket_id c) userName before).2
                   !! Server.socket_id c
                 = Some (DrawingState.addUser (Server.socket_id c) userName before).1)
    by apply lookup_insert_eq.
  split_and!; [done | apply lookup_insert_eq | done | done | done | | done | done].
  unfold DrawingState.getUsers. apply list_elem_of_fmap.
  eexists (Server.socket_id c, _). split; [done|].
  by apply elem_of_map_to_list.
Qed.

(** X25. The undo handler of a joined connection broadcasts to the whole
    room, sender included, exactly when the room's log is not empty; the
    message names the last entry of the log, which is removed.  On an empty
    log nothing is emitted. *)
Theorem undo_handler_broadcast (c : Server.Conn) (rooms : gmap string DrawingState.t)
    (r : string) :
  Server.truthy (Server.currentRoom c) = Some r →
  let log := DrawingState.operations (default DrawingState.init (rooms !! r)) in
  (log = [] → Server.emits (Server.undo c rooms) = []) ∧
  (∀ ops op, log = ops ++ [op] →
     Server.emits (Server.undo c rooms)
       = [(Server.ToRoom r, Server.UndoMsg (op_id op) op)] ∧
     DrawingState.operations <$> (Server.rooms (Server.undo c rooms) !! r) = Some ops).
Proof.
  intros Hr log. subst log. unfold Server.undo. rewrite Hr.
  rewrite (surjective_pairing (RoomManager.getRoom r rooms)), getRoom_fst.
  set (room := default DrawingState.init (rooms !! r)). split.
  - intros Hnil. unfold DrawingState.undoLastOperation. by rewrite Hnil.
  - intros ops op Hlog. rewrite (undoLastOperation_snoc room ops op Hlog).
    simpl. by rewrite lookup_insert_eq.
Qed.

Lemma undo_handler_broadcast_witness :
  Server.emits
    (Server.undo (Server.mkConn "sockA" (Some "r1"%string) (Some "sockA"%string))
       {[ "r1"%string := Session.server session_AB ]})
  = [(Server.ToRoom "r1", Server.UndoMsg (op_id opB) opB)].
Proof.
  pose proof (undo_handler_broadcast
                (Server.mkConn "sockA" (Some "r1"%string) (Some "sockA"%string))
                {[ "r1"%string := Session.server session_AB ]} "r1" eq_refl) as [_ H].
  apply (H [opA] opB). reflexivity.
Defined.

(** X26. A connection that joins a second room is never removed from the
    first: its disconnect only leaves the room joined last, so the user
    stays registered in the first room, which can therefore not be
    released. *)
Theorem room_switch_leaves_ghost (r1 r2 n1 n2 sid : string)
    (rooms : gmap string DrawingState.t) :
  r1 ≠ r2 →
  let o1 := Server.join_room r1 n1 (Server.connect sid) rooms in
  let o2 := Server.join_room r2 n2 (Server.conn o1) (Server.rooms o1) in
  let o3 := Server.disconnect (Server.conn o2) (Server.rooms o2) in
  ∃ room user,
    Server.rooms o3 !! r1 = Some room ∧
    DrawingState.users room !! sid = Some user ∧
    user_name user = n1 ∧
    (RoomManager.deleteRoomIfEmpty r1 (Server.rooms o3)).1 = false.
Proof.
  intros Hne o1 o2 o3. subst o1 o2 o3.
  rewrite (join_room_unfold r1).
  cbn [Server.conn Server.rooms Server.socket_id Server.connect].
  rewrite (join_room_unfold r2). cbn [Server.conn Server.rooms Server.socket_id].
  set (j1 := DrawingState.addUser sid n1 (Server.before r1 rooms)).
  set (rooms2 := <[r2 := _]> (<[r1 := j1.2]> rooms)).
  assert (H2 : rooms2 !! r1 = Some j1.2).
  { unfold rooms2. rewrite lookup_insert_ne by done. apply lookup_insert_eq. }
  assert (Huser : DrawingState.users j1.2 !! sid = Some j1.1) by apply lookup_insert_eq.
  set (c2 := Server.mkConn sid (Some r2) (Some sid)).
  assert (H3 : Server.rooms (Server.disconnect c2 rooms2) !! r1 = Some j1.2).
  { destruct (Server.truthy (Server.currentRoom c2)) as [r|] eqn:Hr.
    - destruct (Server.truthy (Server.currentUserId c2)) as [u|] eqn:Hu.
      + rewrite (disconnect_registry c2 rooms2 r u Hr Hu).
        apply truthy_Some in Hr as [[= <-] _].
        by rewrite on_disconnect_other.
      + unfold Server.disconnect. by rewrite Hr, Hu.
    - unfold Server.disconnect. by rewrite Hr. }
  exists j1.2, j1.1. split_and!; [done | done | done |].
  rewrite (deleteRoomIfEmpty_occupied r1 j1.2); [done | done |].
  intros Hempty. by rewrite Hempty, lookup_empty in Huser.
Qed.

Lemma room_switch_leaves_ghost_witness :
  ∃ room user,
    Server.rooms
      (Server.disconnect
         (Server.conn (Server.join_room "r2" "Ann" (Server.conn
            (Server.join_room "r1" "Ann" (Server.connect "sockA") RoomManager.init))
            (Server.rooms
               (Server.join_room "r1" "Ann" (Server.connect "sockA") RoomManager.init))))
         (Server.rooms (Server.join_room "r2" "Ann" (Server.conn
            (Server.join_room "r1" "Ann" (Server.connect "sockA") RoomManager.init))
            (Server.rooms
               (Server.join_room "r1" "Ann" (Server.connect "sockA") RoomManager.init)))))
      !! "r1"%string = Some room ∧
    DrawingState.users room !! "sockA"%string = Some user.
Proof.
  destruct (room_switch_leaves_ghost "r1" "r2" "Ann" "Ann" "sockA" RoomManager.init)
    as (room & user & Hroom & Huser & _); [discriminate|].
  exists room, user. split; [exact Hroom | exact Huser].
Defined.

(** ** Handlers and callbacks compose to the session steps *)

(** X27. The session step is what the code does end to end: for an event
    of a connection acting in room [r], the server handler leaves room [r]
    in the state the session step computes, changes no other room, and the
    messages that reach another member of the room drive that member's
    callbacks to the client state of the session step.  On a disconnect the
    registry is the one [on_disconnect] computes. *)
Theorem session_simulates_handlers (ev : Server.Inbound) (c : Server.Conn)
    (rooms : gmap string DrawingState.t) (r uid : string) (cl : Client.t) :
  Server.target_room c ev = Some r →
  Server.acting_user c ev = Some uid →
  let out := Server.handle ev c rooms in
  let s' := Session.step
              (Session.mk (default DrawingState.init (rooms !! r)) (Client.history cl))
              (Server.as_event uid ev) in
  (ev ≠ Server.Disconnect → Server.rooms out !! r = Some (Session.server s')) ∧
  (ev = Server.Disconnect →
     Server.rooms out = (RoomManager.on_disconnect r uid rooms).2) ∧
  Client.history (Client.receive_all (Server.heard_by_peer r (Server.emits out)) cl)
    = Session.client s' ∧
  (∀ other, other ≠ r → Server.rooms out !! other = rooms !! other).
Proof.
  intros Hroom Huser out s'. subst out s'.
  fold (Server.before r rooms).
  destruct ev; simpl in Hroom, Huser; cbn [Server.handle Server.as_event Session.step].
  - injection Hroom as ->. injection Huser as <-.
    rewrite join_room_unfold. cbn [Server.rooms Server.emits].
    unfold Server.heard_by_peer. cbn [omap list_omap fst snd].
    rewrite decide_True by done.
    split_and!; [intros _; apply lookup_insert_eq | done | done |].
    intros other Hne. by apply lookup_insert_ne.
  - rewrite (draw_operation_unfold op r) by done. cbn [Server.rooms Server.emits].
    rewrite heard_by_peer_one, decide_True by done.
    split_and!; [intros _; apply lookup_insert_eq | done | done |].
    intros other Hne. by apply lookup_insert_ne.
  - rewrite (cursor_move_unfold x y r uid) by done. cbn [Server.rooms Server.emits].
    rewrite heard_by_peer_one, decide_True by done.
    split_and!; [intros _; apply lookup_insert_eq | done | |].
    + simpl. unfold Client.onCursorMove. by destruct (_ !! _).
    + intros other Hne. by apply lookup_insert_ne.
  - rewrite (undo_unfold r) by done. unfold Session.undo.
    cbn [Session.server Session.client Server.rooms Server.emits].
    destruct (DrawingState.undoLastOperation _) as [[op|] room'];
      cbn [fst snd]; rewrite ?heard_by_peer_one, ?decide_True by done;
      (split_and!; [intros _; apply lookup_insert_eq | done | done |]);
      intros other Hne; by apply lookup_insert_ne.
  - rewrite (redo_unfold op r) by done. cbn [Server.rooms Server.emits].
    rewrite heard_by_peer_one, decide_True by done.
    split_and!; [intros _; apply lookup_insert_eq | done | done |].
    intros other Hne. by apply lookup_insert_ne.
  - rewrite (clear_canvas_unfold r) by done. cbn [Server.rooms Server.emits].
    rewrite heard_by_peer_one, decide_True by done.
    split_and!; [intros _; apply lookup_insert_eq | done | done |].
    intros other Hne. by apply lookup_insert_ne.
  - split_and!; [done | intros _; by apply disconnect_registry | |].
    + rewrite (disconnect_emits r uid) by done.
      by rewrite heard_by_peer_one, decide_True.
    + intros other Hne. rewrite (disconnect_registry c rooms r uid) by done.
      by apply on_disconnect_other.
Qed.

Lemma session_simulates_handlers_witness :
  Server.rooms
    (Server.handle Server.Undo
       (Server.mkConn "sockA" (Some "r1"%string) (Some "sockA"%string))
       {[ "r1"%string := Session.server session_AB ]}) !! "r1"%string
  = Some (Session.server (Session.undo session_AB).2).
Proof.
  pose proof (session_simulates_handlers Server.Undo
                (Server.mkConn "sockA" (Some "r1"%string) (Some "sockA"%string))
                {[ "r1"%string := Session.server session_AB ]} "r1" "sockA"
                (Client.mk (Session.client session_AB) None ∅) eq_refl eq_refl)
    as (H & _).
  apply H. discriminate.
Defined.

(** ** Presence messages rebuild the room's users on the clients *)

Section PresenceSync.

Lemma fold_set_lookup (us : list User) (acc : gmap string User) (k : string) :
  fold_left (λ m user, <[user_id user := user]> m) us acc !! k =
  match last (filter (λ u, user_id u = k) us) with
  | Some u => Some u
  | None => acc !! k
  end.
Proof.
  revert acc. induction us as [|u us IH]; intros acc; [done|].
  cbn [fold_left]. rewrite IH, filter_cons.
  destruct (decide (user_id u = k)) as [<-|Hne].
  - rewrite last_cons, lookup_insert_eq. by destruct (last _).
  - by rewrite lookup_insert_ne.
Qed.

Lemma updateUsersList_rebuilds (room : DrawingState.t) (cl : Client.t) :
  keyed (DrawingState.users room) →
  Client.users (Client.updateUsersList (DrawingState.getUsers room) cl)
  = DrawingState.users room.
Proof.
  intros Hkeyed. apply map_eq. intros k.
  unfold Client.updateUsersList, DrawingState.getUsers. cbn [Client.users].
  rewrite fold_set_lookup, lookup_empty.
  destruct (last _) as [v|] eqn:Hlast.
  - apply last_Some_elem_of, list_elem_of_filter in Hlast as [Hk Hv].
    apply list_elem_of_fmap in Hv as ([k' v'] & -> & Hin%elem_of_map_to_list).
    simpl in *. by rewrite <- Hk, (Hkeyed k' v' Hin).
  - apply last_None in Hlast.
    destruct (DrawingState.users room !! k) as [u|] eqn:Hu; [|done].
    exfalso. eapply (filter_nil_not_elem_of _ _ u Hlast); [by apply Hkeyed|].
    apply list_elem_of_fmap. exists (k, u). split; [done|].
    by apply elem_of_map_to_list.
Qed.

Lemma addUser_keyed (userId userName : string) (room : DrawingState.t) :
  keyed (DrawingState.users room) →
  keyed (DrawingState.users (DrawingState.addUser userId userName room).2).
Proof.
  intros Hkeyed k u. simpl. destruct (decide (k = userId)) as [->|Hne].
  - rewrite lookup_insert_eq. by intros [= <-].
  - rewrite lookup_insert_ne by done. apply Hkeyed.
Qed.

Lemma removeUser_keyed (userId : string) (room : DrawingState.t) :
  keyed (DrawingState.users room) →
  keyed (DrawingState.users (DrawingState.removeUser userId room)).
Proof.
  intros Hkeyed k u. simpl. intros [_ Hu]%lookup_delete_Some. by apply Hkeyed.
Qed.

End PresenceSync.

(** X28. When the room's user records are stored under their own ids (as
    they are in every reachable room), the presence messages rebuild the
    room's users mapping on the clients exactly: after a join, the joiner
    holds the room's log and users and knows its own record, and every
    other member holds the same users; after a disconnect the remaining
    members hold the users without the leaver. *)
Theorem presence_keeps_clients_in_sync (r userName : string) (c : Server.Conn)
    (rooms : gmap string DrawingState.t) (cl : Client.t) :
  (∀ k u, DrawingState.users (default DrawingState.init (rooms !! r)) !! k = Some u →
          user_id u = k) →
  let room := default DrawingState.init (rooms !! r) in
  let joined := DrawingState.addUser (Server.socket_id c) userName room in
  let out := Server.join_room r userName c rooms in
  let me := Client.receive_all (Server.heard_by_sender r (Server.emits out)) cl in
  let peer := Client.receive_all (Server.heard_by_peer r (Server.emits out)) cl in
  Server.rooms out !! r = Some joined.2 ∧
  Client.users me = DrawingState.users joined.2 ∧
  CollaborativeCanvas.canvasOperations (Client.history me)
    = DrawingState.operations joined.2 ∧
  Client.currentUser me = Some joined.1 ∧
  Client.users peer = DrawingState.users joined.2 ∧
  (∀ uid,
     Server.truthy (Server.currentRoom c) = Some r →
     Server.truthy (Server.currentUserId c) = Some uid →
     Client.users
       (Client.receive_all
          (Server.heard_by_peer r (Server.emits (Server.disconnect c rooms))) cl)
     = DrawingState.users (DrawingState.removeUser uid room)).
Proof.
  intros Hkeyed room joined out me peer. subst me peer out.
  assert (Hleft : ∀ uid,
            Server.truthy (Server.currentRoom c) = Some r →
            Server.truthy (Server.currentUserId c) = Some uid →
            Client.users
              (Client.receive_all
                 (Server.heard_by_peer r (Server.emits (Server.disconnect c rooms))) cl)
            = DrawingState.users (DrawingState.removeUser uid room)).
  { intros uid Hr Hu. rewrite (disconnect_emits r uid) by done.
    rewrite heard_by_peer_one, decide_True by done.
    cbn [Client.receive_all fold_left Client.receive Client.onUserLeft Client.users].
    change (Server.before r rooms) with room.
    rewrite updateUsersList_rebuilds by by apply removeUser_keyed.
    simpl. by rewrite delete_delete_eq. }
  rewrite join_room_unfold. change (Server.before r rooms) with room. fold joined.
  cbn [Server.rooms Server.emits].
  unfold Server.heard_by_sender, Server.heard_by_peer.
  cbn [omap list_omap fst snd]. rewrite decide_True by done.
  cbn [Client.receive_all fold_left Client.receive Client.onInitState
       Client.onUserJoined].
  assert (Hjoined : keyed (DrawingState.users joined.2)) by by apply addUser_keyed.
  split_and!.
  - apply lookup_insert_eq.
  - by apply updateUsersList_rebuilds.
  - done.
  - done.
  - by apply updateUsersList_rebuilds.
  - done.
Qed.

Lemma presence_keeps_clients_in_sync_witness :
  Client.users
    (Client.receive_all
       (Server.heard_by_sender "r1"
          (Server.emits (Server.join_room "r1" "Bob" (Server.connect "sockB")
                           {[ "r1"%string := state_Ann ]})))
       Client.init)
  = DrawingState.users (DrawingState.addUser "sockB" "Bob" state_Ann).2.
Proof.
  pose proof (presence_keeps_clients_in_sync "r1" "Bob" (Server.connect "sockB")
                {[ "r1"%string := state_Ann ]} Client.init) as H.
  destruct H as (_ & Hme & _); [|exact Hme].
  intros k u. rewrite lookup_singleton_eq. simpl.
  intros [[<- <-] | [_ Hk]]%lookup_insert_Some; [reflexivity|].
  rewrite lookup_empty in Hk. discriminate Hk.
Defined.

(** * Properties of stroke capture *)

Section Strokes.
Import CanvasManager.

Lemma continue_while_drawing (moves : list (float * float * float)) (c : t) :
  isDrawing c = true →
  let c' := fold_left (λ c m, continueDrawing m.1.1 m.1.2 m.2 c) moves c in
  isDrawing c' = true ∧
  currentPoints c' = currentPoints c ++ (move_point <$> moves) ∧
  currentTool c' = currentTool c ∧
  operations c' = operations c.
Proof.
  revert c. induction moves as [|m moves IH]; intros c Hdrawing.
  - simpl. by rewrite app_nil_r.
  - cbn [fold_left]. set (c1 := continueDrawing _ _ _ c).
    assert (H1 : isDrawing c1 = true ∧
                 currentPoints c1 = currentPoints c ++ [move_point m] ∧
                 currentTool c1 = currentTool c ∧ operations c1 = operations c).
    { unfold c1, continueDrawing. rewrite Hdrawing. simpl.
      by destruct (PrimFloat.leb _ _). }
    destruct H1 as (Hd & Hp & Ht & Ho).
    destruct (IH c1 Hd) as (Hd' & Hp' & Ht' & Ho').
    split_and!; [done | | congruence | congruence].
    rewrite Hp', Hp, <- app_assoc. done.
Qed.

End Strokes.

(** X29. A stroke driven by a mouse press and any number of moves is
    committed on release as one operation: its points are the simplified
    raw points, so it starts at the press position and ends at the last
    position reached; it carries the current tool's colour, width and kind
    and the user's identity; it is appended to the canvas history; and a
    second release (mouseleave after mouseup) commits nothing. *)
Theorem stroke_commit (number_to_string : float → string) (x0 y0 : float)
    (moves : list (float * float * float)) (userId userName : string)
    (now1 rnd now2 : float) (c : CanvasManager.t) :
  let raw := mkPoint x0 y0 :: (move_point <$> moves) in
  let stop := CanvasManager.stopDrawing number_to_string userId userName now1 rnd now2 in
  ∃ op c',
    stop (CanvasManager.drag x0 y0 moves c) = (Some op, c') ∧
    op_points op = Simplify.simplifyPath raw ∧
    head (op_points op) = Some (mkPoint x0 y0) ∧
    last (op_points op) = last raw ∧
    op_userId op = userId ∧ op_userName op = userName ∧
    op_color op = CanvasManager.tool_color (CanvasManager.currentTool c) ∧
    op_width op = CanvasManager.tool_width (CanvasManager.currentTool c) ∧
    (op_type op = Erase ↔
       CanvasManager.tool_type (CanvasManager.currentTool c) = CanvasManager.Eraser) ∧
    CanvasManager.operations c' = CanvasManager.operations c ++ [op] ∧
    CanvasManager.isDrawing c' = false ∧
    CanvasManager.currentPoints c' = [] ∧
    stop c' = (None, c').
Proof.
  intros raw stop. subst stop.
  destruct (continue_while_drawing moves (CanvasManager.startDrawing x0 y0 c) eq_refl)
    as (Hd & Hp & Ht & Ho).
  fold (CanvasManager.drag x0 y0 moves c) in Hd, Hp, Ht, Ho.
  change (CanvasManager.currentPoints (CanvasManager.drag x0 y0 moves c) = raw) in Hp.
  simpl in Ht, Ho.
  unfold CanvasManager.stopDrawing at 1. rewrite Hd, Hp, Ht, Ho.
  change (negb true || (length raw =? 0)) with false. cbn iota.
  eexists _, _. split; [reflexivity|].
  destruct (simplifyPath_keeps_ends_aux raw) as [Hhead Hlast].
  cbn [op_points op_userId op_userName op_color op_width op_type
       CanvasManager.operations CanvasManager.isDrawing CanvasManager.currentPoints].
  split_and!; try done.
  destruct (CanvasManager.tool_type _); split; done.
Qed.

(** X30. While no stroke is in progress, mouse moves and releases do
    nothing: [continueDrawing] and [stopDrawing] leave the canvas manager
    as it is and no operation is produced. *)
Theorem idle_moves_ignored (number_to_string : float → string) (x y now : float)
    (userId userName : string) (now1 rnd now2 : float) (c : CanvasManager.t) :
  CanvasManager.isDrawing c = false →
  CanvasManager.continueDrawing x y now c = c ∧
  CanvasManager.stopDrawing number_to_string userId userName now1 rnd now2 c = (None, c).
Proof.
  intros Hidle. unfold CanvasManager.continueDrawing, CanvasManager.stopDrawing.
  rewrite Hidle. simpl. split; [done|]. destruct c; simpl in *. by subst.
Qed.

Lemma idle_moves_ignored_witness :
  CanvasManager.continueDrawing 3 4 1730000000000 CanvasManager.init = CanvasManager.init ∧
  CanvasManager.stopDrawing (λ _, "0"%string) "sockA" "Ann" 1730000000000 0.25
    1730000000000 CanvasManager.init = (None, CanvasManager.init).
Proof.
  apply (idle_moves_ignored (λ _, "0"%string) 3 4 1730000000000 "sockA" "Ann"
           1730000000000 0.25 1730000000000 CanvasManager.init).
  reflexivity.
Defined.
